(** * badssl: a shallow embedding of the certificate / authority model

    The Go package [badssl] creates a self-signed root authority, signs leaf
    certificates under it and moves both through DER and PEM.  Its own code
    is orchestration: key generation, signing, ASN.1 parsing, PEM wrapping,
    the random source and the clock all belong to the Go standard library.

    The embedding follows that split.  The package's functions are
    translated one by one from the source; the standard-library calls they
    make are the fields of the class [Collaborators], and what a proof needs
    to know about such a call is stated as a named contract and taken as a
    hypothesis.  A small executable instance ([Sim]) runs the embedding on
    concrete inputs. *)

From stdpp Require Import gmap.
From Stdlib Require Import ZArith List String Lia Bool QArith.
From Stdlib Require Import Strings.Byte.
Import ListNotations.

Local Open Scope Z_scope.

(** ** Go values *)

Definition byte := Byte.byte.

(** [type PEM []byte] and [type DER []byte]; a nil slice is the empty list. *)
Definition PEM := list byte.
Definition DER := list byte.

(** Error values: the two constructors the package itself uses.  Errors
    coming out of the standard library are values of the same type. *)
Inductive error : Type :=
| errors_New (text : string)
| fmt_Errorf (format : string) (arg : string).

(** What a standard-library call hands back: a value or an error. *)
Inductive result (A : Type) : Type :=
| Ok (a : A)
| Err (e : error).
Arguments Ok {A} a.
Arguments Err {A} e.

(** A call of the package either returns or panics (nil dereference). *)
Inductive outcome (A : Type) : Type :=
| Returns (a : A)
| Panics.
Arguments Returns {A} a.
Arguments Panics {A}.

(** ** The standard-library types the package touches *)

Module time.
(** An instant and a signed span, both counted in nanoseconds.  A [Time]
    covers a far wider range than a [Duration], so [Add] does not wrap. *)
Definition Time := Z.
Definition Duration := Z.
Definition Add (t : Time) (d : Duration) : Time := t + d.
Definition Sub (t u : Time) : Duration := t - u.
End time.

Module pkix.
Record Name := {
  Country : list string;
  Organization : list string;
  OrganizationalUnit : list string;
  Locality : list string;
  Province : list string;
  StreetAddress : list string;
  PostalCode : list string;
  SerialNumber : string;
  CommonName : string
}.
(** [pkix.Name{CommonName: cn}]: every other field at its zero value. *)
Definition Name_of_CommonName (cn : string) : Name :=
  {| Country := []; Organization := []; OrganizationalUnit := [];
     Locality := []; Province := []; StreetAddress := []; PostalCode := [];
     SerialNumber := EmptyString; CommonName := cn |}.
Definition zero : Name := Name_of_CommonName EmptyString.
End pkix.

Module rsa.
Record PublicKey := { N : Z; E : Z }.
(** [Public] is the embedded [PublicKey] struct of [rsa.PrivateKey]. *)
Record PrivateKey := { Public : PublicKey; D : Z; Primes : list Z }.
End rsa.

Module x509.
Definition KeyUsage := Z.
Definition KeyUsageDigitalSignature : KeyUsage := Z.shiftl 1 0.
Definition KeyUsageKeyEncipherment : KeyUsage := Z.shiftl 1 2.
Definition KeyUsageCertSign : KeyUsage := Z.shiftl 1 5.
Definition ExtKeyUsage := Z.
Definition ExtKeyUsageServerAuth : ExtKeyUsage := 1.

(** The fields of [x509.Certificate] that the package sets or that the
    properties below read; the package leaves all others at zero. *)
Record Certificate := {
  Raw : DER;
  Signature : list byte;
  PublicKey : option rsa.PublicKey;
  SerialNumber : option Z;
  Issuer : pkix.Name;
  Subject : pkix.Name;
  NotBefore : time.Time;
  NotAfter : time.Time;
  KeyUsage_ : KeyUsage;
  ExtKeyUsage_ : list ExtKeyUsage;
  BasicConstraintsValid : bool;
  IsCA : bool
}.
End x509.

Module pem.
Record Block := {
  Type_ : string;
  Headers : list (string * string);
  Bytes : list byte
}.
End pem.

(** The dynamic types the package passes where the library takes [any]. *)
Inductive any : Type :=
| any_rsa_PublicKey (p : option rsa.PublicKey)
| any_rsa_PrivateKey (p : option rsa.PrivateKey).

(** ** The collaborators

    [World] is everything outside the program that a call can read or
    advance: the process-wide random source and the clock. *)
Class Collaborators (World : Type) := {
  (** [time.Now()] *)
  time_Now : World -> time.Time * World;
  (** [rand.Int(rand.Reader, max)] *)
  rand_Int : World -> Z -> result Z * World;
  (** [rsa.GenerateKey(rand.Reader, bits)] *)
  rsa_GenerateKey : World -> Z -> result rsa.PrivateKey * World;
  (** [x509.CreateCertificate(rand.Reader, template, parent, pub, priv)] *)
  x509_CreateCertificate :
    World -> x509.Certificate -> x509.Certificate ->
    rsa.PublicKey -> rsa.PrivateKey -> result DER * World;
  (** [x509.ParseCertificate(der)] *)
  x509_ParseCertificate : DER -> result x509.Certificate;
  (** [x509.MarshalPKIXPublicKey(pub)] *)
  x509_MarshalPKIXPublicKey : any -> result DER;
  (** [x509.ParsePKCS1PrivateKey(der)] *)
  x509_ParsePKCS1PrivateKey : DER -> result rsa.PrivateKey;
  (** [x509.MarshalPKCS1PrivateKey(key)] *)
  x509_MarshalPKCS1PrivateKey : rsa.PrivateKey -> DER;
  (** [pem.Encode(&b, block)] on a fresh buffer: the buffer's bytes, and
      the error *)
  pem_Encode : pem.Block -> list byte * option error;
  (** [pem.Decode(data)]: the first block, if any, and the rest *)
  pem_Decode : list byte -> option pem.Block * list byte;
  (** the certificate's signature over its signed part verifies under the
      key (what [Certificate.CheckSignatureFrom] computes for RSA) *)
  x509_checkSignature : rsa.PublicKey -> x509.Certificate -> bool
}.

(** ** The package's types *)

Module PublicKey.
Record t := { privateKey : option rsa.PrivateKey }.
End PublicKey.

Module PrivateKey.
Record t := { privateKey : option rsa.PrivateKey }.
End PrivateKey.

Record CertOptions := {
  ValidFor : time.Duration;
  CommonName : string
}.

Module certificate.
Record t := {
  privateKey : option PrivateKey.t;
  cert : x509.Certificate;
  der : DER
}.
End certificate.

Module authority.
Record t := { c : option certificate.t }.
End authority.

(** A value of the interface type [Certificate] as Go holds it when it
    comes from this package: the nil interface, or a pointer of dynamic
    type [*certificate], and that pointer may itself be nil. *)
Inductive Certificate : Type :=
| Certificate_nil
| Certificate_of (p : option certificate.t).

Definition RootCAKeyUsage : x509.KeyUsage :=
  Z.lor (Z.lor x509.KeyUsageKeyEncipherment x509.KeyUsageDigitalSignature)
        x509.KeyUsageCertSign.

Definition RSAKeyBits : Z := 2048.

(** A Go [(T, error)] pair whose first component is a pointer.  Pointers
    that may be nil are [option]s throughout ([None] is nil); a function
    returns its pair as the source assigns it, and dereferencing nil is
    [Panics]. *)
Definition pair_of (A : Type) : Type := (option A * option error)%type.

Section Package.
Context {World : Type} `{Lib : !Collaborators World}.

(** *** Keys *)

Definition newKey (w : World) : result rsa.PrivateKey * World :=
  rsa_GenerateKey w RSAKeyBits.

Definition NewPrivateKey (w : World) : pair_of PrivateKey.t * World :=
  match newKey w with
  | (Err err, w') => ((None, Some err), w')
  | (Ok k, w') => ((Some {| PrivateKey.privateKey := Some k |}, None), w')
  end.

Definition PrivateKey_Public (k : PrivateKey.t) : PublicKey.t :=
  {| PublicKey.privateKey := PrivateKey.privateKey k |}.

Definition PublicKey_GetPEM (k : PublicKey.t) : PEM * option error :=
  match x509_MarshalPKIXPublicKey (any_rsa_PrivateKey (PublicKey.privateKey k)) with
  | Err err => ([], Some err)
  | Ok der =>
      pem_Encode {| pem.Type_ := "PUBLIC KEY"; pem.Headers := []; pem.Bytes := der |}
  end.

Definition PrivateKey_GetPEM (k : PrivateKey.t) : outcome (PEM * option error) :=
  match PrivateKey.privateKey k with
  | None => Panics
  | Some key =>
      Returns (pem_Encode {| pem.Type_ := "RSA PRIVATE KEY"; pem.Headers := [];
                             pem.Bytes := x509_MarshalPKCS1PrivateKey key |})
  end.

Definition ParseKeyDER (data : DER) : pair_of PrivateKey.t :=
  match x509_ParsePKCS1PrivateKey data with
  | Err err => (None, Some err)
  | Ok key => (Some {| PrivateKey.privateKey := Some key |}, None)
  end.

(** *** Certificates *)

Definition decodePEMData (data : list byte) : pair_of pem.Block :=
  if Nat.eqb (List.length data) 0 then
    (None, Some (errors_New "zero-length PEM block"))
  else
    let (block, _) := pem_Decode data in
    match block with
    | None => (None, Some (errors_New "no PEM block could be decoded"))
    | Some _ => (block, None)
    end.

Definition ParseKeyPEM (data : PEM) : outcome (pair_of PrivateKey.t) :=
  match decodePEMData data with
  | (_, Some err) => Returns (None, Some err)
  | (None, None) => Panics
  | (Some block, None) =>
      if negb (String.eqb (pem.Type_ block) "RSA PRIVATE KEY") then
        Returns (None,
                 Some (fmt_Errorf "PEM block is not of type RSA PRIVATE KEY: %q"
                                  (pem.Type_ block)))
      else Returns (ParseKeyDER (pem.Bytes block))
  end.

Definition parseCertificateDER (data : DER) (k : option PrivateKey.t)
  : pair_of certificate.t :=
  match x509_ParseCertificate data with
  | Err err => (None, Some err)
  | Ok cert =>
      (Some {| certificate.cert := cert;
               certificate.privateKey := k;
               certificate.der := data |}, None)
  end.

(** The tag test assigns [err] and falls through: the [return] that follows
    assigns both results again from [parseCertificateDER]. *)
Definition parseCertificatePEM (data : PEM) (k : option PrivateKey.t)
  : outcome (pair_of certificate.t) :=
  match decodePEMData data with
  | (_, Some err) => Returns (None, Some err)
  | (None, None) => Panics
  | (Some block, None) =>
      let err :=
        if negb (String.eqb (pem.Type_ block) "CERTIFICATE") then
          Some (fmt_Errorf "PEM block is not of type CERTIFICATE: %q"
                           (pem.Type_ block))
        else None in
      Returns (parseCertificateDER (pem.Bytes block) k)
  end.

(** The exported wrappers.  A [Certificate] interface value is modelled by
    the [*certificate] it holds. *)
Definition ParseCertificatePEM (data : PEM) (k : option PrivateKey.t)
  : outcome (pair_of certificate.t) :=
  parseCertificatePEM data k.

Definition ParseCertificateDER (data : DER) (k : option PrivateKey.t)
  : pair_of certificate.t :=
  parseCertificateDER data k.

(** The same two wrappers with the interface value spelled out.  Their
    [return parseCertificateDER(data, k)] converts the [*certificate] to
    [Certificate] on every path, the error paths included.  (The other
    interface results of the package are named results that stay
    unassigned on an error, so for them nil is the nil interface.) *)
Definition ParseCertificateDER_interface (data : DER) (k : option PrivateKey.t)
  : Certificate * option error :=
  let (c, err) := parseCertificateDER data k in (Certificate_of c, err).

Definition ParseCertificatePEM_interface (data : PEM) (k : option PrivateKey.t)
  : outcome (Certificate * option error) :=
  match parseCertificatePEM data k with
  | Panics => Panics
  | Returns (c, err) => Returns (Certificate_of c, err)
  end.

Definition certDERToPEM (der : DER) : PEM * option error :=
  pem_Encode {| pem.Type_ := "CERTIFICATE"; pem.Headers := []; pem.Bytes := der |}.

Definition certificate_GetKey (c : certificate.t) : option PrivateKey.t :=
  certificate.privateKey c.

Definition certificate_GetPEM (c : certificate.t) : PEM * option error :=
  certDERToPEM (certificate.der c).

(** *** Authorities *)

Definition randomSerialNumber (w : World) : (option Z * option error) * World :=
  let snLimit := Z.shiftl 1 128 in
  match rand_Int w snLimit with
  | (Ok sn, w') => ((Some sn, None), w')
  | (Err err, w') => ((None, Some err), w')
  end.

Definition newAuthorityCertificate (o : CertOptions) (w : World)
  : pair_of x509.Certificate * World :=
  match randomSerialNumber w with
  | ((_, Some err), w1) => ((None, Some err), w1)
  | ((sn, None), w1) =>
      let (notBefore, w2) := time_Now w1 in
      let notAfter := time.Add notBefore (ValidFor o) in
      ((Some {| x509.Raw := [];
                x509.Signature := [];
                x509.PublicKey := None;
                x509.SerialNumber := sn;
                x509.Issuer := pkix.zero;
                x509.Subject := pkix.Name_of_CommonName (CommonName o);
                x509.NotBefore := notBefore;
                x509.NotAfter := notAfter;
                x509.KeyUsage_ := RootCAKeyUsage;
                x509.ExtKeyUsage_ := [x509.ExtKeyUsageServerAuth];
                x509.BasicConstraintsValid := true;
                x509.IsCA := true |}, None), w2)
  end.

Definition newServerCertificate (o : CertOptions) (w : World)
  : pair_of x509.Certificate * World :=
  match randomSerialNumber w with
  | ((_, Some err), w1) => ((None, Some err), w1)
  | ((sn, None), w1) =>
      let (notBefore, w2) := time_Now w1 in
      let notAfter := time.Add notBefore (ValidFor o) in
      ((Some {| x509.Raw := [];
                x509.Signature := [];
                x509.PublicKey := None;
                x509.SerialNumber := sn;
                x509.Issuer := pkix.zero;
                x509.Subject := pkix.Name_of_CommonName (CommonName o);
                x509.NotBefore := notBefore;
                x509.NotAfter := notAfter;
                x509.KeyUsage_ := 0;
                x509.ExtKeyUsage_ := [];
                x509.BasicConstraintsValid := true;
                x509.IsCA := false |}, None), w2)
  end.

Definition ParseAuthorityDER (data : DER) (k : option PrivateKey.t)
  : pair_of authority.t :=
  match parseCertificateDER data k with
  | (_, Some err) => (None, Some err)
  | (c, None) => (Some {| authority.c := c |}, None)
  end.

Definition ParseAuthorityPEM (data : PEM) (k : option PrivateKey.t)
  : outcome (pair_of authority.t) :=
  match parseCertificatePEM data k with
  | Panics => Panics
  | Returns (_, Some err) => Returns (None, Some err)
  | Returns (c, None) => Returns (Some {| authority.c := c |}, None)
  end.

Definition authority_GetPEM (a : authority.t) : outcome (PEM * option error) :=
  match authority.c a with
  | None => Panics
  | Some c => Returns (certificate_GetPEM c)
  end.

Definition authority_GetKey (a : authority.t) : outcome (option PrivateKey.t) :=
  match authority.c a with
  | None => Panics
  | Some c => Returns (certificate_GetKey c)
  end.

Definition authority_Reload (a : authority.t) : outcome (pair_of authority.t) :=
  match authority.c a with
  | None => Panics
  | Some c =>
      Returns (ParseAuthorityDER (certificate.der c) (certificate.privateKey c))
  end.

(** [if k == nil { if k, err = NewPrivateKey(); err != nil { return } }] *)
Definition key_or_new (k : option PrivateKey.t) (w : World)
  : pair_of PrivateKey.t * World :=
  match k with
  | None => NewPrivateKey w
  | Some _ => ((k, None), w)
  end.

(** The template is both the certificate to sign and its parent.  The
    arguments [&k.privateKey.PublicKey] and [k.privateKey] dereference [k]
    and its inner key. *)
Definition NewAuthority (k : option PrivateKey.t) (o : CertOptions) (w : World)
  : outcome (pair_of authority.t * World) :=
  match key_or_new k w with
  | ((_, Some err), w1) => Returns ((None, Some err), w1)
  | ((k, None), w1) =>
      match newAuthorityCertificate o w1 with
      | ((_, Some err), w2) => Returns ((None, Some err), w2)
      | ((None, None), w2) => Panics
      | ((Some cert, None), w2) =>
          match k with
          | None => Panics
          | Some k' =>
              match PrivateKey.privateKey k' with
              | None => Panics
              | Some key =>
                  match x509_CreateCertificate w2 cert cert (rsa.Public key) key with
                  | (Err err, w3) => Returns ((None, Some err), w3)
                  | (Ok der, w3) =>
                      let auth :=
                        {| authority.c :=
                             Some {| certificate.cert := cert;
                                     certificate.privateKey := k;
                                     certificate.der := der |} |} in
                      match authority_Reload auth with
                      | Panics => Panics
                      | Returns r => Returns (r, w3)
                      end
                  end
              end
          end
      end
  end.

(** The parent is [a.c.cert], the subject's key [&k.privateKey.PublicKey]
    and the signer [a.c.privateKey.privateKey].  The signer is handed to
    the library as it is; a nil one panics there when it is asked for its
    public half.  The certificate returned holds the template [cert]. *)
Definition authority_NewCert (a : authority.t) (k : option PrivateKey.t)
    (o : CertOptions) (w : World)
  : outcome (pair_of certificate.t * World) :=
  match key_or_new k w with
  | ((_, Some err), w1) => Returns ((None, Some err), w1)
  | ((k, None), w1) =>
      match newServerCertificate o w1 with
      | ((_, Some err), w2) => Returns ((None, Some err), w2)
      | ((None, None), w2) => Panics
      | ((Some cert, None), w2) =>
          match authority.c a, k with
          | Some ac, Some k' =>
              match PrivateKey.privateKey k', certificate.privateKey ac with
              | Some key, Some ak =>
                  match PrivateKey.privateKey ak with
                  | Some signer =>
                      match x509_CreateCertificate w2 cert (certificate.cert ac)
                                                   (rsa.Public key) signer with
                      | (Err err, w3) => Returns ((None, Some err), w3)
                      | (Ok der, w3) =>
                          Returns ((Some {| certificate.cert := cert;
                                            certificate.privateKey := k;
                                            certificate.der := der |}, None), w3)
                      end
                  | None => Panics
                  end
              | _, _ => Panics
              end
          | _, _ => Panics
          end
      end
  end.

(** The two struct literals on their own, as functions of what varies. *)

(** The struct literal of [newAuthorityCertificate]. *)
Definition authority_template (o : CertOptions) (sn : Z) (notBefore : time.Time)
  : x509.Certificate :=
  {| x509.Raw := []; x509.Signature := []; x509.PublicKey := None;
     x509.SerialNumber := Some sn;
     x509.Issuer := pkix.zero;
     x509.Subject := pkix.Name_of_CommonName (CommonName o);
     x509.NotBefore := notBefore;
     x509.NotAfter := time.Add notBefore (ValidFor o);
     x509.KeyUsage_ := RootCAKeyUsage;
     x509.ExtKeyUsage_ := [x509.ExtKeyUsageServerAuth];
     x509.BasicConstraintsValid := true;
     x509.IsCA := true |}.

(** The struct literal of [newServerCertificate]. *)
Definition server_template (o : CertOptions) (sn : Z) (notBefore : time.Time)
  : x509.Certificate :=
  {| x509.Raw := []; x509.Signature := []; x509.PublicKey := None;
     x509.SerialNumber := Some sn;
     x509.Issuer := pkix.zero;
     x509.Subject := pkix.Name_of_CommonName (CommonName o);
     x509.NotBefore := notBefore;
     x509.NotAfter := time.Add notBefore (ValidFor o);
     x509.KeyUsage_ := 0;
     x509.ExtKeyUsage_ := [];
     x509.BasicConstraintsValid := true;
     x509.IsCA := false |}.

End Package.

(** ** The same calls at the level of pointers

    In Go an [Authority] is a pointer to an [authority] struct that points
    to a [certificate], which points to an [x509.Certificate] and to a
    [PrivateKey].  To speak about what a call leaves untouched, [Ptr]
    models [NewCert] over a store of such objects: a call reads through
    pointers and allocates, and the store it returns shows every write. *)
Module Ptr.

Definition loc := positive.

Inductive object : Type :=
| obj_PrivateKey (privateKey : option rsa.PrivateKey)
| obj_x509 (cert : x509.Certificate)
| obj_certificate (privateKey : option loc) (cert : loc) (der : DER)
| obj_authority (c : option loc).

Abbreviation heap := (gmap loc object).

(** [&T{...}]: a new object at an address not in use. *)
Definition alloc (h : heap) (o : object) : loc * heap :=
  let l := fresh (dom h) in (l, <[l := o]> h).

Definition load_PrivateKey (h : heap) (l : loc) : option (option rsa.PrivateKey) :=
  match h !! l with Some (obj_PrivateKey k) => Some k | _ => None end.

Definition load_x509 (h : heap) (l : loc) : option x509.Certificate :=
  match h !! l with Some (obj_x509 x) => Some x | _ => None end.

Definition load_certificate (h : heap) (l : loc) : option (option loc * loc * DER) :=
  match h !! l with Some (obj_certificate k x d) => Some (k, x, d) | _ => None end.

Definition load_authority (h : heap) (l : loc) : option (option loc) :=
  match h !! l with Some (obj_authority c) => Some c | _ => None end.

(** The value a pointer stands for, read out of the store. *)
Definition view_key (h : heap) (p : option loc) : option (option PrivateKey.t) :=
  match p with
  | None => Some None
  | Some l =>
      match load_PrivateKey h l with
      | Some k => Some (Some {| PrivateKey.privateKey := k |})
      | None => None
      end
  end.

Definition view_certificate (h : heap) (l : loc) : option certificate.t :=
  match load_certificate h l with
  | Some (kp, xp, d) =>
      match view_key h kp, load_x509 h xp with
      | Some k, Some x =>
          Some {| certificate.privateKey := k; certificate.cert := x;
                  certificate.der := d |}
      | _, _ => None
      end
  | None => None
  end.

Definition view_certificate_opt (h : heap) (p : option loc)
  : option (option certificate.t) :=
  match p with
  | None => Some None
  | Some l => match view_certificate h l with Some c => Some (Some c) | None => None end
  end.

Definition view_authority (h : heap) (l : loc) : option authority.t :=
  match load_authority h l with
  | Some cp =>
      match view_certificate_opt h cp with
      | Some c => Some {| authority.c := c |}
      | None => None
      end
  | None => None
  end.

(** The struct literal of [newServerCertificate], as the value-level
    function builds it. *)
Local Abbreviation build_server_template := newServerCertificate.

Section PackagePtr.
Context {World : Type} `{Lib : !Collaborators World}.

Definition NewPrivateKey (h : heap) (w : World)
  : (option loc * option error) * heap * World :=
  match newKey w with
  | (Err err, w') => ((None, Some err), h, w')
  | (Ok k, w') =>
      let (l, h') := alloc h (obj_PrivateKey (Some k)) in
      ((Some l, None), h', w')
  end.

Definition key_or_new (k : option loc) (h : heap) (w : World)
  : (option loc * option error) * heap * World :=
  match k with
  | None => NewPrivateKey h w
  | Some _ => ((k, None), h, w)
  end.

Definition newServerCertificate (o : CertOptions) (h : heap) (w : World)
  : (option loc * option error) * heap * World :=
  match build_server_template o w with
  | ((Some cert, err), w') =>
      let (l, h') := alloc h (obj_x509 cert) in
      ((Some l, err), h', w')
  | ((None, err), w') => ((None, err), h, w')
  end.

(** The arguments of the call to [x509.CreateCertificate], read left to
    right: [cert], [a.c.cert], [&k.privateKey.PublicKey],
    [a.c.privateKey.privateKey].  [None] is a nil dereference. *)
Definition CreateCertificate_args (h : heap) (a : loc) (k cert : option loc)
  : option (x509.Certificate * x509.Certificate * rsa.PublicKey * rsa.PrivateKey) :=
  certp ← cert;
  template ← load_x509 h certp;
  acp ← load_authority h a ≫= id;
  '(akp, parentp, _) ← load_certificate h acp;
  parent ← load_x509 h parentp;
  kp ← k;
  key ← load_PrivateKey h kp ≫= id;
  akp' ← akp;
  signer ← load_PrivateKey h akp' ≫= id;
  Some (template, parent, rsa.Public key, signer).

Definition authority_NewCert (a : loc) (k : option loc) (o : CertOptions)
    (h : heap) (w : World)
  : outcome (option loc * option error) * heap * World :=
  match key_or_new k h w with
  | ((_, Some err), h1, w1) => (Returns (None, Some err), h1, w1)
  | ((k, None), h1, w1) =>
      match newServerCertificate o h1 w1 with
      | ((_, Some err), h2, w2) => (Returns (None, Some err), h2, w2)
      | ((None, None), h2, w2) => (Panics, h2, w2)
      | ((Some certp, None), h2, w2) =>
          match CreateCertificate_args h2 a k (Some certp) with
          | None => (Panics, h2, w2)
          | Some (template, parent, pub, signer) =>
              match x509_CreateCertificate w2 template parent pub signer with
              | (Err err, w3) => (Returns (None, Some err), h2, w3)
              | (Ok der, w3) =>
                  let (l, h3) := alloc h2 (obj_certificate k certp der) in
                  (Returns (Some l, None), h3, w3)
              end
          end
      end
  end.

End PackagePtr.
End Ptr.

(** ** An executable instance of the collaborators

    [Sim] stands in for the standard library so that the embedding can be
    run: the random source is a finite tape of bytes, the clock ticks once
    per reading, a key is one byte, a signed certificate is the signer's
    byte, the subject's key byte and the two common names, and a PEM block
    is a marker, the tag and the payload.  It is small on purpose; it meets
    every contract stated below, which is what it is for. *)
Module Sim.

Record World := { entropy : list byte; clock : Z }.

Definition EOF : error := errors_New "unexpected EOF".

(** [io.ReadFull(rand.Reader, buf)] for a buffer of [n] bytes. *)
Definition read (n : nat) (w : World) : option (list byte * World) :=
  if (List.length (entropy w) <? n)%nat then None
  else Some (firstn n (entropy w),
             {| entropy := skipn n (entropy w); clock := clock w |}).

Definition Now (w : World) : time.Time * World :=
  (clock w, {| entropy := entropy w; clock := clock w + 1 |}).

(** Big-endian value of a byte string ([big.Int.SetBytes]). *)
Fixpoint be (bs : list byte) (acc : Z) : Z :=
  match bs with
  | [] => acc
  | b :: bs' => be bs' (acc * 256 + Z.of_nat (Byte.to_nat b))
  end.

(** The [len]-byte big-endian form of [n] ([big.Int.FillBytes]). *)
Fixpoint to_be (len : nat) (n : Z) : list byte :=
  match len with
  | O => []
  | S len' =>
      match Byte.of_nat (Z.to_nat (n / 256 ^ Z.of_nat len')) with
      | Some b => b
      | None => x00
      end :: to_be len' (n mod 256 ^ Z.of_nat len')
  end.

(** [rand.Int]: draw as many bytes as the limit needs, clear the bits above
    the limit's length, and draw again while the value reaches the limit. *)
Fixpoint Int_loop (fuel k : nat) (bitLen max : Z) (w : World) : result Z * World :=
  match fuel with
  | O => (Err EOF, w)
  | S fuel' =>
      match read k w with
      | None => (Err EOF, w)
      | Some (bs, w') =>
          let n := Z.land (be bs 0) (Z.ones bitLen) in
          if n <? max then (Ok n, w') else Int_loop fuel' k bitLen max w'
      end
  end.

Definition Int (w : World) (max : Z) : result Z * World :=
  if max - 1 =? 0 then (Ok 0, w)
  else
    let bitLen := Z.log2 (max - 1) + 1 in
    let k := Z.to_nat ((bitLen + 7) / 8) in
    Int_loop (S (List.length (entropy w))) k bitLen max w.

Definition key_of_byte (b : byte) : rsa.PrivateKey :=
  {| rsa.Public := {| rsa.N := Z.of_nat (Byte.to_nat b); rsa.E := 65537 |};
     rsa.D := Z.of_nat (Byte.to_nat b);
     rsa.Primes := [] |}.

Definition byte_of_Z (z : Z) : option byte :=
  if 0 <=? z then Byte.of_nat (Z.to_nat z) else None.

Definition GenerateKey (w : World) (bits : Z) : result rsa.PrivateKey * World :=
  match read 1 w with
  | Some ([b], w') => (Ok (key_of_byte b), w')
  | _ => (Err EOF, w)
  end.

Definition only_CommonName (n : pkix.Name) : bool :=
  match pkix.Country n, pkix.Organization n, pkix.OrganizationalUnit n,
        pkix.Locality n, pkix.Province n, pkix.StreetAddress n,
        pkix.PostalCode n, pkix.SerialNumber n with
  | [], [], [], [], [], [], [], EmptyString => true
  | _, _, _, _, _, _, _, _ => false
  end.

Definition unsupported : error := errors_New "x509: unsupported certificate".

(** signer byte, subject key byte, length of the issuer's common name, the
    issuer's common name, the subject's common name *)
Definition CreateCertificate (w : World) (template parent : x509.Certificate)
    (pub : rsa.PublicKey) (priv : rsa.PrivateKey) : result DER * World :=
  let issuer := list_byte_of_string (pkix.CommonName (x509.Subject parent)) in
  let subject := list_byte_of_string (pkix.CommonName (x509.Subject template)) in
  if only_CommonName (x509.Subject parent) then
    match byte_of_Z (rsa.N (rsa.Public priv)), byte_of_Z (rsa.N pub),
          Byte.of_nat (List.length issuer) with
    | Some s, Some p, Some l => (Ok (s :: p :: l :: issuer ++ subject), w)
    | _, _, _ => (Err unsupported, w)
    end
  else (Err unsupported, w).

Definition ParseCertificate (der : DER) : result x509.Certificate :=
  match der with
  | s :: p :: l :: names =>
      if (List.length names <? Byte.to_nat l)%nat then
        Err (errors_New "x509: malformed certificate")
      else
        Ok {| x509.Raw := der;
              x509.Signature := [s];
              x509.PublicKey :=
                Some {| rsa.N := Z.of_nat (Byte.to_nat p); rsa.E := 65537 |};
              x509.SerialNumber := Some 0;
              x509.Issuer :=
                pkix.Name_of_CommonName
                  (string_of_list_byte (firstn (Byte.to_nat l) names));
              x509.Subject :=
                pkix.Name_of_CommonName
                  (string_of_list_byte (skipn (Byte.to_nat l) names));
              x509.NotBefore := 0;
              x509.NotAfter := 0;
              x509.KeyUsage_ := 0;
              x509.ExtKeyUsage_ := [];
              x509.BasicConstraintsValid := true;
              x509.IsCA := false |}
  | _ => Err (errors_New "x509: malformed certificate")
  end.

Definition checkSignature (pub : rsa.PublicKey) (c : x509.Certificate) : bool :=
  match x509.Signature c with
  | [s] => Z.of_nat (Byte.to_nat s) =? rsa.N pub
  | _ => false
  end.

Definition MarshalPKIXPublicKey (pub : any) : result DER :=
  match pub with
  | any_rsa_PublicKey (Some k) =>
      match byte_of_Z (rsa.N k) with
      | Some b => Ok [b]
      | None => Err (errors_New "x509: unsupported public key")
      end
  | any_rsa_PublicKey None =>
      Err (errors_New "x509: unsupported public key")
  | any_rsa_PrivateKey _ =>
      Err (errors_New "x509: unsupported public key type: *rsa.PrivateKey")
  end.

Definition ParsePKCS1PrivateKey (der : DER) : result rsa.PrivateKey :=
  match der with
  | [b] => Ok (key_of_byte b)
  | _ => Err (errors_New "x509: failed to parse private key")
  end.

Definition MarshalPKCS1PrivateKey (k : rsa.PrivateKey) : DER :=
  match byte_of_Z (rsa.N (rsa.Public k)) with
  | Some b => [b]
  | None => []
  end.

(** marker, length of the tag, the tag, the payload *)
Definition Encode (b : pem.Block) : list byte * option error :=
  let tag := list_byte_of_string (pem.Type_ b) in
  match pem.Headers b, Byte.of_nat (List.length tag) with
  | [], Some l => (x2d :: l :: tag ++ pem.Bytes b, None)
  | _, _ => ([], Some (errors_New "pem: cannot encode block"))
  end.

Definition Decode (data : list byte) : option pem.Block * list byte :=
  match data with
  | x2d :: l :: body =>
      if (List.length body <? Byte.to_nat l)%nat then (None, data)
      else
        (Some {| pem.Type_ := string_of_list_byte (firstn (Byte.to_nat l) body);
                 pem.Headers := [];
                 pem.Bytes := skipn (Byte.to_nat l) body |}, [])
  | _ => (None, data)
  end.




#[export] Instance lib : Collaborators World := {|
  time_Now := Now;
  rand_Int := Int;
  rsa_GenerateKey := GenerateKey;
  x509_CreateCertificate := CreateCertificate;
  x509_ParseCertificate := ParseCertificate;
  x509_MarshalPKIXPublicKey := MarshalPKIXPublicKey;
  x509_ParsePKCS1PrivateKey := ParsePKCS1PrivateKey;
  x509_MarshalPKCS1PrivateKey := MarshalPKCS1PrivateKey;
  pem_Encode := Encode;
  pem_Decode := Decode;
  x509_checkSignature := checkSignature
|}.

(** Concrete inputs used to run the embedding: a world, the options of the
    spec's scenario (24 h root, 1 h leaf), and the root authority that
    [NewAuthority] makes of them. *)
Definition tape (n : nat) : list byte := repeat x07 n.
Definition w0 : World := {| entropy := x05 :: x09 :: tape 40; clock := 1000 |}.
Definition w1 : World := {| entropy := tape 25; clock := 1001 |}.
Definition root_options : CertOptions :=
  {| ValidFor := 86400000000000; CommonName := "root" |}.
Definition leaf_options : CertOptions :=
  {| ValidFor := 3600000000000; CommonName := "leaf" |}.

Definition root_key : PrivateKey.t :=
  {| PrivateKey.privateKey := Some (key_of_byte x05) |}.
Definition root_der : DER := x05 :: x05 :: x04 :: list_byte_of_string "rootroot".
Definition root_cert : x509.Certificate :=
  {| x509.Raw := root_der;
     x509.Signature := [x05];
     x509.PublicKey := Some {| rsa.N := 5; rsa.E := 65537 |};
     x509.SerialNumber := Some 0;
     x509.Issuer := pkix.Name_of_CommonName "root";
     x509.Subject := pkix.Name_of_CommonName "root";
     x509.NotBefore := 0;
     x509.NotAfter := 0;
     x509.KeyUsage_ := 0;
     x509.ExtKeyUsage_ := [];
     x509.BasicConstraintsValid := true;
     x509.IsCA := false |}.
Definition root : authority.t :=
  {| authority.c :=
       Some {| certificate.privateKey := Some root_key;
               certificate.cert := root_cert;
               certificate.der := root_der |} |}.

(** The leaf of the scenario, as [root.NewCert] issues it in [w1]: one
    byte of entropy goes into the leaf's key ([w1k]), sixteen into its
    serial number. *)
Definition w1k : World := {| entropy := tape 24; clock := 1001 |}.
(** The world in which [NewAuthority] builds the root's template: the
    first byte of [w0] has gone into the root's key. *)
Definition w0k : World := {| entropy := x09 :: tape 40; clock := 1000 |}.
Definition w2 : World := {| entropy := tape 8; clock := 1002 |}.
Definition leaf : certificate.t :=
  {| certificate.privateKey :=
       Some {| PrivateKey.privateKey := Some (key_of_byte x07) |};
     certificate.cert :=
       server_template leaf_options 9341084582143408800955381380479911687 1001;
     certificate.der := x05 :: x07 :: x04 :: list_byte_of_string "rootleaf" |}.

(** The root loaded without a key, the zero [PrivateKey], and a world
    whose random source has run dry. *)
Definition keyless : authority.t :=
  {| authority.c :=
       Some {| certificate.privateKey := None;
               certificate.cert := root_cert;
               certificate.der := root_der |} |}.
Definition zero_key : PrivateKey.t := {| PrivateKey.privateKey := None |}.
Definition dry : World := {| entropy := []; clock := 0 |}.

(** The root's bytes wrapped under the tag of a private key. *)
Definition wrong_tag_pem : PEM :=
  fst (Encode {| pem.Type_ := "RSA PRIVATE KEY"; pem.Headers := [];
                 pem.Bytes := root_der |}).

(** The root authority laid out in a store: key, parsed certificate,
    [certificate] struct and [authority] struct at addresses 1 to 4. *)
Definition h0 : Ptr.heap :=
  <[4%positive := Ptr.obj_authority (Some 3%positive)]>
    (<[3%positive := Ptr.obj_certificate (Some 1%positive) 2%positive root_der]>
       (<[2%positive := Ptr.obj_x509 root_cert]>
          (<[1%positive := Ptr.obj_PrivateKey (Some (key_of_byte x05))]> ∅))).

End Sim.

(** ** What the proofs assume of the standard library

    Each contract is a documented fact about one library call.  A theorem
    that needs one takes it as a hypothesis; [Sim] meets all of them. *)
Section Contracts.
Context {World : Type} `{Lib : !Collaborators World}.







(** The bytes [x509.CreateCertificate] returns parse as a certificate whose
    issuer is the parent's subject and whose signature was made with
    [priv], so it verifies under the public half of [priv]. *)
Definition CreateCertificate_signs : Prop :=
  forall (w w' : World) template parent pub priv der,
    x509_CreateCertificate w template parent pub priv = (Ok der, w') ->
    exists parsed,
      x509_ParseCertificate der = Ok parsed /\
      x509.Issuer parsed = x509.Subject parent /\
      x509_checkSignature (rsa.Public priv) parsed = true.

(** A parsed certificate records the bytes it was parsed from in [Raw],
    and no certificate parses from nothing. *)
Definition ParseCertificate_keeps_Raw : Prop :=
  forall der parsed,
    x509_ParseCertificate der = Ok parsed -> x509.Raw parsed = der /\ der <> [].

(** [pem.Encode] of a header-less CERTIFICATE block writes something and
    reports no error, and [pem.Decode] of what it wrote gives the block
    back. *)
Definition pem_round_trip : Prop :=
  forall der : DER,
    let b := {| pem.Type_ := "CERTIFICATE"; pem.Headers := []; pem.Bytes := der |} in
    exists out rest,
      pem_Encode b = (out, None) /\ out <> [] /\ pem_Decode out = (Some b, rest).

(** The type switch of [x509.MarshalPKIXPublicKey] has no case for
    [*rsa.PrivateKey]: it answers "unsupported public key type". *)
Definition MarshalPKIXPublicKey_rejects_private : Prop :=
  forall p, exists err, x509_MarshalPKIXPublicKey (any_rsa_PrivateKey p) = Err err.

(** The same round trip of [encoding/pem] for a header-less block under
    any one tag. *)
Definition pem_round_trip_tag (tag : string) : Prop :=
  forall der : DER,
    let b := {| pem.Type_ := tag; pem.Headers := []; pem.Bytes := der |} in
    exists out rest,
      pem_Encode b = (out, None) /\ out <> [] /\ pem_Decode out = (Some b, rest).

(** [x509.CreateCertificate] carries the subject of a template that names
    only a common name into the certificate it signs. *)
Definition CreateCertificate_keeps_subject : Prop :=
  forall (w w' : World) template parent pub priv der cn,
    x509_CreateCertificate w template parent pub priv = (Ok der, w') ->
    x509.Subject template = pkix.Name_of_CommonName cn ->
    exists parsed,
      x509_ParseCertificate der = Ok parsed /\
      x509.Subject parsed = pkix.Name_of_CommonName cn.

(** A Go pair that holds a value or an error, and not both. *)
Definition one_of {A : Type} (r : pair_of A) : Prop :=
  (exists a, r = (Some a, None)) \/ (exists err, r = (None, Some err)).

(** The key an authority signs with: [a.c.privateKey.privateKey], if every
    pointer on the way is set. *)
Definition signer_of (a : authority.t) : option rsa.PrivateKey :=
  match authority.c a with
  | Some c =>
      match certificate.privateKey c with
      | Some ak => PrivateKey.privateKey ak
      | None => None
      end
  | None => None
  end.

(** The invariant of the data model: the parsed form is the decode of the
    binary form. *)
Definition consistent (c : certificate.t) : Prop :=
  x509_ParseCertificate (certificate.der c) = Ok (certificate.cert c).

End Contracts.

(** ** Properties of the package *)
Section Properties.
Context {World : Type} `{Lib : !Collaborators World}.

(** *** Unwrapping PEM *)

Lemma decodePEMData_nil : decodePEMData [] = (None, Some (errors_New "zero-length PEM block")).
Proof. reflexivity. Qed.

Lemma decodePEMData_cons (data : list byte) :
  data <> [] ->
  decodePEMData data =
    match fst (pem_Decode data) with
    | None => (None, Some (errors_New "no PEM block could be decoded"))
    | Some b => (Some b, None)
    end.
Proof.
  intros Hne. unfold decodePEMData.
  destruct data as [|x xs]; [congruence|]. cbn [List.length Nat.eqb].
  destruct (pem_Decode (x :: xs)) as [[b|] rest]; reflexivity.
Qed.

(** [decodePEMData] hands back a block or an error, never both and never
    neither: the nil dereferences that follow it in the source are dead. *)
Lemma decodePEMData_one (data : list byte) :
  (exists b, decodePEMData data = (Some b, None)) \/
  (exists err, decodePEMData data = (None, Some err)).
Proof.
  destruct data as [|x xs].
  - right. eexists. apply decodePEMData_nil.
  - rewrite decodePEMData_cons by discriminate.
    destruct (fst (pem_Decode (x :: xs))); eauto.
Qed.

Lemma decodePEMData_block (data : list byte) (b : pem.Block) (rest : list byte) :
  data <> [] -> pem_Decode data = (Some b, rest) ->
  decodePEMData data = (Some b, None).
Proof. intros Hne Hd. rewrite decodePEMData_cons by exact Hne. now rewrite Hd. Qed.

Lemma decode_errors_propagate (data : list byte) (k : option PrivateKey.t) (err : error) :
  decodePEMData data = (None, Some err) ->
  ParseCertificatePEM data k = Returns (None, Some err) /\
  ParseAuthorityPEM data k = Returns (None, Some err) /\
  ParseKeyPEM data = Returns (None, Some err).
Proof.
  intros Hd.
  unfold ParseAuthorityPEM, ParseCertificatePEM, parseCertificatePEM, ParseKeyPEM.
  rewrite Hd. auto.
Qed.

(** C7.  Zero-length input is refused with the zero-length error, input
    with no decodable block with the no-block error; the two errors differ,
    and in both cases [decodePEMData] and the three parsers built on it
    return the error and no block or entity. *)
Theorem decodePEMData_failures (data : list byte) (k : option PrivateKey.t) :
  let empty := errors_New "zero-length PEM block" in
  let no_block := errors_New "no PEM block could be decoded" in
  let fails_with err :=
    decodePEMData data = (None, Some err) /\
    ParseCertificatePEM data k = Returns (None, Some err) /\
    ParseAuthorityPEM data k = Returns (None, Some err) /\
    ParseKeyPEM data = Returns (None, Some err) in
  (List.length data = 0%nat -> fails_with empty) /\
  (List.length data <> 0%nat -> fst (pem_Decode data) = None -> fails_with no_block) /\
  empty <> no_block.
Proof.
  cbv zeta. split; [|split].
  - intros Hlen. destruct data; [|discriminate].
    split; [apply decodePEMData_nil|].
    apply decode_errors_propagate, decodePEMData_nil.
  - intros Hlen Hnone.
    assert (Hne : data <> []) by (intros ->; apply Hlen; reflexivity).
    assert (Hd : decodePEMData data = (None, Some (errors_New "no PEM block could be decoded"))).
    { rewrite decodePEMData_cons by exact Hne. now rewrite Hnone. }
    split; [exact Hd|]. apply decode_errors_propagate, Hd.
  - discriminate.
Qed.

(** *** Tags *)

(** [ParseKeyPEM] returns as soon as the tag is wrong. *)
Lemma ParseKeyPEM_rejects_wrong_tag (data : PEM) (block : pem.Block) (rest : list byte) :
  data <> [] -> pem_Decode data = (Some block, rest) ->
  pem.Type_ block <> "RSA PRIVATE KEY"%string ->
  ParseKeyPEM data =
    Returns (None, Some (fmt_Errorf "PEM block is not of type RSA PRIVATE KEY: %q"
                                    (pem.Type_ block))).
Proof.
  intros Hne Hd Htag. unfold ParseKeyPEM.
  rewrite (decodePEMData_block _ _ _ Hne Hd).
  apply String.eqb_neq in Htag. now rewrite Htag.
Qed.

(** C1 (as the code behaves).  A block under any tag other than
    CERTIFICATE whose payload parses is accepted by [ParseCertificatePEM]
    and [ParseAuthorityPEM]: an entity comes back and the error is nil. *)
Theorem parseCertificatePEM_accepts_wrong_tag
    (data : PEM) (k : option PrivateKey.t) (block : pem.Block)
    (rest : list byte) (parsed : x509.Certificate) :
  data <> [] -> pem_Decode data = (Some block, rest) ->
  pem.Type_ block <> "CERTIFICATE"%string ->
  x509_ParseCertificate (pem.Bytes block) = Ok parsed ->
  let c := {| certificate.privateKey := k; certificate.cert := parsed;
              certificate.der := pem.Bytes block |} in
  ParseCertificatePEM data k = Returns (Some c, None) /\
  ParseAuthorityPEM data k = Returns (Some {| authority.c := Some c |}, None).
Proof.
  intros Hne Hd _ Hp c.
  assert (H : parseCertificatePEM data k = Returns (Some c, None)).
  { unfold parseCertificatePEM, parseCertificateDER.
    rewrite (decodePEMData_block _ _ _ Hne Hd), Hp. reflexivity. }
  split; [exact H|]. unfold ParseAuthorityPEM. now rewrite H.
Qed.

(** *** Public keys *)

(** C4.  [PublicKey.GetPEM] hands the wrapped private key to the PKIX
    marshaller, which rejects it: for every [PrivateKey], the PEM of its
    [Public()] is an error and no bytes. *)
Theorem PublicKey_GetPEM_always_fails (k : PrivateKey.t) :
  MarshalPKIXPublicKey_rejects_private ->
  exists err, PublicKey_GetPEM (PrivateKey_Public k) = ([], Some err).
Proof.
  intros Hrej. unfold PublicKey_GetPEM, PrivateKey_Public. cbn.
  destruct (Hrej (PrivateKey.privateKey k)) as [err ->]. now exists err.
Qed.

(** *** Inversion of the constructors

    The tactic below walks a successful run backwards: it splits the
    scrutinee of every [match] in the hypothesis it is given. *)
Ltac split_run H :=
  repeat match type of H with
         | context [match ?x with _ => _ end] =>
             let E := fresh "E" in destruct x eqn:E; try discriminate H
         end.

Lemma randomSerialNumber_inv (w w1 : World) (sn : option Z) :
  randomSerialNumber w = ((sn, None), w1) ->
  exists n, sn = Some n /\ rand_Int w (2 ^ 128) = (Ok n, w1).
Proof.
  unfold randomSerialNumber. change (Z.shiftl 1 128) with (2 ^ 128).
  intros H. destruct (rand_Int w (2 ^ 128)) as [[n|e] w2]; inversion H; subst; eauto.
Qed.

Lemma NewPrivateKey_inv (w w1 : World) (k : option PrivateKey.t) :
  NewPrivateKey w = ((k, None), w1) ->
  exists key, k = Some {| PrivateKey.privateKey := Some key |}.
Proof.
  unfold NewPrivateKey. intros H.
  destruct (newKey w) as [[key|e] w2]; inversion H; subst; eauto.
Qed.

Lemma key_or_new_inv (k k' : option PrivateKey.t) (w w1 : World) :
  key_or_new k w = ((k', None), w1) ->
  exists key, k' = Some key /\ (forall k0, k = Some k0 -> key = k0 /\ w1 = w).
Proof.
  destruct k as [k0|]; cbn; intros H.
  - inversion H; subst. exists k0. split; [reflexivity|]. intros ? [= <-]. auto.
  - destruct (NewPrivateKey_inv _ _ _ H) as [key ->]. eexists. split; [reflexivity|].
    discriminate.
Qed.

Lemma newAuthorityCertificate_inv (o : CertOptions) (w w' : World)
    (cert : option x509.Certificate) :
  newAuthorityCertificate o w = ((cert, None), w') ->
  exists sn w1 notBefore,
    randomSerialNumber w = ((Some sn, None), w1) /\
    time_Now w1 = (notBefore, w') /\
    cert = Some (authority_template o sn notBefore).
Proof.
  unfold newAuthorityCertificate. intros H.
  destruct (randomSerialNumber w) as [[sn [e|]] w1] eqn:Hsn; [discriminate|].
  destruct (randomSerialNumber_inv _ _ _ Hsn) as (n & -> & _).
  destruct (time_Now w1) as [t w2] eqn:Ht. inversion H; subst.
  exists n, w1, t. auto.
Qed.

Lemma newServerCertificate_inv (o : CertOptions) (w w' : World)
    (cert : option x509.Certificate) :
  newServerCertificate o w = ((cert, None), w') ->
  exists sn w1 notBefore,
    randomSerialNumber w = ((Some sn, None), w1) /\
    time_Now w1 = (notBefore, w') /\
    cert = Some (server_template o sn notBefore).
Proof.
  unfold newServerCertificate. intros H.
  destruct (randomSerialNumber w) as [[sn [e|]] w1] eqn:Hsn; [discriminate|].
  destruct (randomSerialNumber_inv _ _ _ Hsn) as (n & -> & _).
  destruct (time_Now w1) as [t w2] eqn:Ht. inversion H; subst.
  exists n, w1, t. auto.
Qed.

(** A successful [NewCert], step by step. *)
Lemma authority_NewCert_inv (a : authority.t) (k : option PrivateKey.t)
    (o : CertOptions) (w w' : World) (c : certificate.t) :
  authority_NewCert a k o w = Returns ((Some c, None), w') ->
  exists k' key ac ak signer template w1 w2 der,
    key_or_new k w = ((Some k', None), w1) /\
    PrivateKey.privateKey k' = Some key /\
    newServerCertificate o w1 = ((Some template, None), w2) /\
    authority.c a = Some ac /\
    certificate.privateKey ac = Some ak /\
    PrivateKey.privateKey ak = Some signer /\
    x509_CreateCertificate w2 template (certificate.cert ac) (rsa.Public key) signer
      = (Ok der, w') /\
    c = {| certificate.privateKey := Some k'; certificate.cert := template;
           certificate.der := der |}.
Proof.
  unfold authority_NewCert. intros H. split_run H.
  inversion H; subst. repeat eexists; eauto.
Qed.

(** A successful [NewAuthority], step by step. *)
Lemma NewAuthority_inv (k : option PrivateKey.t) (o : CertOptions)
    (w w' : World) (r : pair_of authority.t) :
  NewAuthority k o w = Returns (r, w') ->
  (exists err, r = (None, Some err)) \/
  exists k' key template w1 w2 der,
    key_or_new k w = ((Some k', None), w1) /\
    PrivateKey.privateKey k' = Some key /\
    newAuthorityCertificate o w1 = ((Some template, None), w2) /\
    x509_CreateCertificate w2 template template (rsa.Public key) key = (Ok der, w') /\
    r = ParseAuthorityDER der (Some k').
Proof.
  unfold NewAuthority, authority_Reload. cbn [authority.c certificate.der certificate.privateKey].
  intros H. split_run H; inversion H; subst; eauto.
  right. repeat eexists; eauto.
Qed.

(** *** Binary form and parsed form *)

Lemma parseCertificateDER_inv (data : DER) (k : option PrivateKey.t)
    (c : option certificate.t) :
  parseCertificateDER data k = (c, None) ->
  exists parsed,
    x509_ParseCertificate data = Ok parsed /\
    c = Some {| certificate.privateKey := k; certificate.cert := parsed;
                certificate.der := data |}.
Proof.
  unfold parseCertificateDER. intros H.
  destruct (x509_ParseCertificate data) as [parsed|e]; inversion H; subst; eauto.
Qed.

Lemma parseCertificatePEM_inv (data : PEM) (k : option PrivateKey.t)
    (c : option certificate.t) :
  parseCertificatePEM data k = Returns (c, None) ->
  exists block,
    decodePEMData data = (Some block, None) /\
    parseCertificateDER (pem.Bytes block) k = (c, None).
Proof.
  unfold parseCertificatePEM. intros H.
  destruct (decodePEMData data) as [[block|] [e|]]; try discriminate H.
  inversion H. eauto.
Qed.

(** Every certificate that comes out of a parser is consistent. *)
Lemma parsed_certificates_consistent (k : option PrivateKey.t) (c : certificate.t) :
  (forall data, ParseCertificateDER data k = (Some c, None) -> consistent c) /\
  (forall data, ParseCertificatePEM data k = Returns (Some c, None) -> consistent c).
Proof.
  split; intros data H.
  - destruct (parseCertificateDER_inv _ _ _ H) as (parsed & Hp & [= ->]). exact Hp.
  - destruct (parseCertificatePEM_inv _ _ _ H) as (block & _ & H1).
    destruct (parseCertificateDER_inv _ _ _ H1) as (parsed & Hp & [= ->]). exact Hp.
Qed.

(** So is the certificate inside every authority the package builds. *)
Lemma authorities_consistent (k : option PrivateKey.t) (a : authority.t) :
  (forall data, ParseAuthorityDER data k = (Some a, None) ->
     exists c, authority.c a = Some c /\ consistent c) /\
  (forall data, ParseAuthorityPEM data k = Returns (Some a, None) ->
     exists c, authority.c a = Some c /\ consistent c) /\
  (forall o w w', NewAuthority k o w = Returns ((Some a, None), w') ->
     exists c, authority.c a = Some c /\ consistent c).
Proof.
  assert (HD : forall data k0, ParseAuthorityDER data k0 = (Some a, None) ->
                 exists c, authority.c a = Some c /\ consistent c).
  { intros data k0 H. unfold ParseAuthorityDER in H.
    destruct (parseCertificateDER data k0) as [c [e|]] eqn:E; [discriminate|].
    destruct (parseCertificateDER_inv _ _ _ E) as (parsed & Hp & ->).
    inversion H; subst. eexists. split; [reflexivity|exact Hp]. }
  split; [|split].
  - intros data. apply HD.
  - intros data H. unfold ParseAuthorityPEM in H.
    destruct (parseCertificatePEM data k) as [[c [e|]]|] eqn:E; try discriminate H.
    destruct (parseCertificatePEM_inv _ _ _ E) as (block & _ & E1).
    destruct (parseCertificateDER_inv _ _ _ E1) as (parsed & Hp & ->).
    inversion H; subst. eexists. split; [reflexivity|exact Hp].
  - intros o w w' H. destruct (NewAuthority_inv _ _ _ _ _ H) as [[e He]|H'].
    + discriminate.
    + destruct H' as (k' & key & t & w1 & w2 & der & _ & _ & _ & _ & Hr).
      symmetry in Hr. eapply HD, Hr.
Qed.

(** C2 (as the code behaves).  The certificate [NewCert] returns pairs the
    signed bytes with the unsigned template: its parsed form is never the
    decode of its binary form. *)
Theorem NewCert_keeps_the_template
    (a : authority.t) (k : option PrivateKey.t) (o : CertOptions)
    (w w' : World) (c : certificate.t) :
  ParseCertificate_keeps_Raw ->
  authority_NewCert a k o w = Returns ((Some c, None), w') ->
  x509.Raw (certificate.cert c) = [] /\ ~ consistent c.
Proof.
  intros Hraw H.
  destruct (authority_NewCert_inv _ _ _ _ _ _ H)
    as (k' & key & ac & ak & signer & t & w1 & w2 & der & _ & _ & Ht & _ & _ & _ & _ & ->).
  destruct (newServerCertificate_inv _ _ _ _ Ht) as (sn & w3 & nb & _ & _ & [= ->]).
  split; [reflexivity|]. unfold consistent. cbn. intros Hp.
  destruct (Hraw _ _ Hp) as [Hr Hne]. cbn in Hr. congruence.
Qed.

(** *** Issuing *)

(** C3.  The bytes of a certificate returned by [a.NewCert] parse to a
    certificate whose issuer is the subject of [a]'s own certificate and
    whose signature verifies under the public half of [a]'s key. *)
Theorem NewCert_issued_by_authority
    (a : authority.t) (k : option PrivateKey.t) (o : CertOptions)
    (w w' : World) (c : certificate.t) :
  CreateCertificate_signs ->
  authority_NewCert a k o w = Returns ((Some c, None), w') ->
  exists ac ak signer parsed,
    authority.c a = Some ac /\
    certificate.privateKey ac = Some ak /\
    PrivateKey.privateKey ak = Some signer /\
    x509_ParseCertificate (certificate.der c) = Ok parsed /\
    x509.Issuer parsed = x509.Subject (certificate.cert ac) /\
    x509_checkSignature (rsa.Public signer) parsed = true.
Proof.
  intros Hsigns H.
  destruct (authority_NewCert_inv _ _ _ _ _ _ H)
    as (k' & key & ac & ak & signer & t & w1 & w2 & der & _ & _ & _ & Hac & Hak & Hs & Hc & ->).
  destruct (Hsigns _ _ _ _ _ _ _ Hc) as (parsed & Hp & Hi & Hv).
  exists ac, ak, signer, parsed. cbn. repeat split; assumption.
Qed.

(** What a successful [NewAuthority] returns, in one equation. *)
Lemma NewAuthority_is_ParseAuthorityDER_aux
    (k : option PrivateKey.t) (o : CertOptions) (w w' : World) (a : authority.t) :
  NewAuthority k o w = Returns ((Some a, None), w') ->
  exists k' der parsed,
    x509_ParseCertificate der = Ok parsed /\
    a = {| authority.c :=
             Some {| certificate.privateKey := Some k';
                     certificate.cert := parsed;
                     certificate.der := der |} |}.
Proof.
  intros H. destruct (NewAuthority_inv _ _ _ _ _ H) as [[e He]|H']; [discriminate|].
  destruct H' as (k' & key & t & w1 & w2 & der & _ & _ & _ & _ & Hr).
  symmetry in Hr. unfold ParseAuthorityDER in Hr.
  destruct (parseCertificateDER der (Some k')) as [c [e|]] eqn:E; [discriminate|].
  destruct (parseCertificateDER_inv _ _ _ E) as (parsed & Hp & ->).
  inversion Hr; subst. eauto.
Qed.

(** C5.  An authority returned by [NewAuthority] is the one
    [ParseAuthorityDER] builds from the freshly signed bytes and the key:
    its parsed certificate is the decode of those bytes, not the template
    that was signed. *)
Theorem NewAuthority_is_ParseAuthorityDER
    (k : option PrivateKey.t) (o : CertOptions) (w w' : World) (a : authority.t) :
  NewAuthority k o w = Returns ((Some a, None), w') ->
  exists k' key template w1 w2 der parsed,
    key_or_new k w = ((Some k', None), w1) /\
    (forall k0, k = Some k0 -> k' = k0) /\
    PrivateKey.privateKey k' = Some key /\
    newAuthorityCertificate o w1 = ((Some template, None), w2) /\
    x509_CreateCertificate w2 template template (rsa.Public key) key = (Ok der, w') /\
    ParseAuthorityDER der (Some k') = (Some a, None) /\
    x509_ParseCertificate der = Ok parsed /\
    a = {| authority.c :=
             Some {| certificate.privateKey := Some k';
                     certificate.cert := parsed;
                     certificate.der := der |} |}.
Proof.
  intros H. destruct (NewAuthority_inv _ _ _ _ _ H) as [[e He]|H']; [discriminate|].
  destruct H' as (k' & key & t & w1 & w2 & der & Hk & Hkey & Ht & Hc & Hr).
  symmetry in Hr. pose proof Hr as Hr'. unfold ParseAuthorityDER in Hr'.
  destruct (parseCertificateDER der (Some k')) as [c [e|]] eqn:E; [discriminate|].
  destruct (parseCertificateDER_inv _ _ _ E) as (parsed & Hp & ->).
  inversion Hr'; subst.
  exists k', key, t, w1, w2, der, parsed. repeat split; auto.
  intros k0 Hk0. destruct (key_or_new_inv _ _ _ _ Hk) as (key' & [= <-] & Hsame).
  now destruct (Hsame _ Hk0).
Qed.

(** C6.  Create, encode with [GetPEM], load the PEM again with
    [ParseAuthorityPEM] and the authority's key: the DER bytes of the
    loaded authority are those of the original. *)
Theorem authority_PEM_round_trip
    (k : option PrivateKey.t) (o : CertOptions) (w w' : World) (a : authority.t) :
  pem_round_trip ->
  NewAuthority k o w = Returns ((Some a, None), w') ->
  exists c text key c2,
    authority.c a = Some c /\
    authority_GetPEM a = Returns (text, None) /\
    authority_GetKey a = Returns key /\
    ParseAuthorityPEM text key = Returns (Some {| authority.c := Some c2 |}, None) /\
    certificate.der c2 = certificate.der c.
Proof.
  intros Hrt H.
  destruct (NewAuthority_is_ParseAuthorityDER_aux _ _ _ _ _ H) as (k' & der & parsed & Hp & ->).
  destruct (Hrt der) as (out & rest & Henc & Hne & Hdec).
  eexists _, out, (Some k'), _. split; [reflexivity|].
  unfold authority_GetPEM, authority_GetKey, certificate_GetPEM, certificate_GetKey, certDERToPEM.
  cbn. rewrite Henc. split; [reflexivity|]. split; [reflexivity|].
  unfold ParseAuthorityPEM, parseCertificatePEM, parseCertificateDER.
  rewrite (decodePEMData_block _ _ _ Hne Hdec). cbn. rewrite Hp. split; reflexivity.
Qed.

(** *** Templates: validity window and serial number *)

(** C8.  Authority and leaf alike, a template has [NotBefore] equal to the
    clock reading taken while it is built (right after the serial number is
    drawn) and [NotAfter - NotBefore] equal to [o.ValidFor] exactly.  This
    holds of every template a builder returns; each of the two builders
    does return one whenever the serial number is drawn; and these are the
    templates at work in the constructors: [NewAuthority] signs the one
    [newAuthorityCertificate] built, [NewCert] signs and keeps the one
    [newServerCertificate] built. *)
Theorem template_validity_window (o : CertOptions) :
  (forall w w' cert,
     newAuthorityCertificate o w = ((Some cert, None), w') \/
     newServerCertificate o w = ((Some cert, None), w') ->
     exists sn w1,
       randomSerialNumber w = ((sn, None), w1) /\
       time_Now w1 = (x509.NotBefore cert, w') /\
       time.Sub (x509.NotAfter cert) (x509.NotBefore cert) = ValidFor o) /\
  (forall w sn w1 now w',
     randomSerialNumber w = ((Some sn, None), w1) ->
     time_Now w1 = (now, w') ->
     exists ca cl,
       newAuthorityCertificate o w = ((Some ca, None), w') /\
       newServerCertificate o w = ((Some cl, None), w') /\
       x509.NotBefore ca = now /\
       x509.NotBefore cl = now /\
       time.Sub (x509.NotAfter ca) (x509.NotBefore ca) = ValidFor o /\
       time.Sub (x509.NotAfter cl) (x509.NotBefore cl) = ValidFor o) /\
  (forall k w w' a,
     NewAuthority k o w = Returns ((Some a, None), w') ->
     exists template w1 w2 pub key der,
       newAuthorityCertificate o w1 = ((Some template, None), w2) /\
       x509_CreateCertificate w2 template template pub key = (Ok der, w') /\
       time.Sub (x509.NotAfter template) (x509.NotBefore template) = ValidFor o) /\
  (forall a k w w' c,
     authority_NewCert a k o w = Returns ((Some c, None), w') ->
     exists w1 w2 parent pub signer,
       newServerCertificate o w1 = ((Some (certificate.cert c), None), w2) /\
       x509_CreateCertificate w2 (certificate.cert c) parent pub signer
         = (Ok (certificate.der c), w') /\
       time.Sub (x509.NotAfter (certificate.cert c)) (x509.NotBefore (certificate.cert c))
         = ValidFor o).
Proof.
  assert (Hbuilt : forall w w' cert,
            newAuthorityCertificate o w = ((Some cert, None), w') \/
            newServerCertificate o w = ((Some cert, None), w') ->
            exists sn w1,
              randomSerialNumber w = ((sn, None), w1) /\
              time_Now w1 = (x509.NotBefore cert, w') /\
              time.Sub (x509.NotAfter cert) (x509.NotBefore cert) = ValidFor o).
  { intros w w' cert [H|H];
      [destruct (newAuthorityCertificate_inv _ _ _ _ H) as (sn & w1 & nb & Hsn & Hnow & [= ->])
      |destruct (newServerCertificate_inv _ _ _ _ H) as (sn & w1 & nb & Hsn & Hnow & [= ->])];
      eexists _, _; cbn; (split; [exact Hsn|split; [exact Hnow|]]);
      unfold time.Sub, time.Add; lia. }
  split; [exact Hbuilt|]. split; [|split].
  - intros w n w1 now w' Hsn Hnow.
    exists (authority_template o n now), (server_template o n now).
    unfold newAuthorityCertificate, newServerCertificate. rewrite Hsn, Hnow. cbn.
    repeat split; unfold time.Sub, time.Add; lia.
  - intros k w w' a H.
    destruct (NewAuthority_inv _ _ _ _ _ H) as [[e He]|H']; [discriminate|].
    destruct H' as (k' & key & t & w1 & w2 & der & _ & _ & Ht & Hc & _).
    destruct (Hbuilt _ _ _ (or_introl Ht)) as (n & w3 & _ & _ & Hspan).
    exists t, w1, w2, (rsa.Public key), key, der. auto.
  - intros a k w w' c H.
    destruct (authority_NewCert_inv _ _ _ _ _ _ H)
      as (k' & key & ac & ak & signer & t & w1 & w2 & der & _ & _ & Ht & _ & _ & _ & Hc & ->).
    destruct (Hbuilt _ _ _ (or_intror Ht)) as (n & w3 & _ & _ & Hspan).
    exists w1, w2, (certificate.cert ac), (rsa.Public key), signer. cbn. auto.
Qed.

(** The same for the constructors alone: the certificate [NewCert]
    returns still carries its template, and [NewAuthority] signs the
    template it built. *)
Lemma signed_templates_valid_for (o : CertOptions) (k : option PrivateKey.t)
    (w w' : World) :
  (forall a c, authority_NewCert a k o w = Returns ((Some c, None), w') ->
     time.Sub (x509.NotAfter (certificate.cert c)) (x509.NotBefore (certificate.cert c))
       = ValidFor o) /\
  (forall a, NewAuthority k o w = Returns ((Some a, None), w') ->
     exists template w2 pub key der,
       x509_CreateCertificate w2 template template pub key = (Ok der, w') /\
       time.Sub (x509.NotAfter template) (x509.NotBefore template) = ValidFor o).
Proof.
  split.
  - intros a c H.
    destruct (authority_NewCert_inv _ _ _ _ _ _ H)
      as (k' & key & ac & ak & signer & t & w1 & w2 & der & _ & _ & Ht & _ & _ & _ & _ & ->).
    destruct (newServerCertificate_inv _ _ _ _ Ht) as (sn & w3 & nb & _ & _ & [= ->]).
    cbn. unfold time.Sub, time.Add; lia.
  - intros a H. destruct (NewAuthority_inv _ _ _ _ _ H) as [[e He]|H']; [discriminate|].
    destruct H' as (k' & key & t & w1 & w2 & der & _ & _ & Ht & Hc & _).
    destruct (newAuthorityCertificate_inv _ _ _ _ Ht) as (sn & w3 & nb & _ & _ & [= ->]).
    eexists _, w2, _, key, der. split; [exact Hc|].
    cbn. unfold time.Sub, time.Add; lia.
Qed.

(** [randomSerialNumber] is one call of [rand.Int] with the limit
    [2^128], handed on as it is. *)
Lemma randomSerialNumber_is_rand_Int (w : World) :
  randomSerialNumber w =
    (match fst (rand_Int w (2 ^ 128)) with
     | Ok sn => (Some sn, None)
     | Err err => (None, Some err)
     end, snd (rand_Int w (2 ^ 128))).
Proof.
  unfold randomSerialNumber. change (Z.shiftl 1 128) with (2 ^ 128).
  destruct (rand_Int w (2 ^ 128)) as [[n|e] w2]; reflexivity.
Qed.


End Properties.

(** ** Properties at the level of pointers *)
Section PtrProperties.
Context {World : Type} `{Lib : !Collaborators World}.

Lemma alloc_spec (h h' : Ptr.heap) (o : Ptr.object) (l : Ptr.loc) :
  Ptr.alloc h o = (l, h') -> h !! l = None /\ h' = <[l := o]> h.
Proof.
  unfold Ptr.alloc. intros [= <- <-]. split; [|reflexivity].
  apply not_elem_of_dom, is_fresh.
Qed.

Lemma alloc_grows (h h' : Ptr.heap) (o : Ptr.object) (l : Ptr.loc) :
  Ptr.alloc h o = (l, h') -> h ⊆ h' /\ h' !! l = Some o.
Proof.
  intros H. destruct (alloc_spec _ _ _ _ H) as [Hfresh ->]. split.
  - now apply insert_subseteq.
  - apply lookup_insert_eq.
Qed.

Lemma key_or_new_ptr_grows (k k1 : option Ptr.loc) (h h1 : Ptr.heap) (w w1 : World) err :
  Ptr.key_or_new k h w = ((k1, err), h1, w1) -> h ⊆ h1.
Proof.
  destruct k; cbn; [intros [= <- <- <- <-]; reflexivity|].
  unfold Ptr.NewPrivateKey. destruct (newKey w) as [[key|e] w2]; [|intros [= <- <- <- <-]; reflexivity].
  destruct (Ptr.alloc h _) as [l h2] eqn:E. intros [= <- <- <- <-]. apply (alloc_grows _ _ _ _ E).
Qed.

Lemma newServerCertificate_ptr_grows (o : CertOptions) (c : option Ptr.loc) (h h1 : Ptr.heap) (w w1 : World) err :
  Ptr.newServerCertificate o h w = ((c, err), h1, w1) -> h ⊆ h1.
Proof.
  unfold Ptr.newServerCertificate. destruct (newServerCertificate o w) as [[[t|] e] w2]; [|intros [= <- <- <- <-]; reflexivity].
  destruct (Ptr.alloc h _) as [l h2] eqn:E. intros [= <- <- <- <-]. apply (alloc_grows _ _ _ _ E).
Qed.

Lemma authority_NewCert_ptr_grows (a : Ptr.loc) (k : option Ptr.loc) (o : CertOptions) (h : Ptr.heap) (w : World) :
  h ⊆ (Ptr.authority_NewCert a k o h w).1.2.
Proof.
  unfold Ptr.authority_NewCert.
  destruct (Ptr.key_or_new k h w) as [[[k1 e1] h1] w1] eqn:E1.
  pose proof (key_or_new_ptr_grows _ _ _ _ _ _ _ E1) as H1.
  destruct e1; [exact H1|].
  destruct (Ptr.newServerCertificate o h1 w1) as [[[c2 e2] h2] w2] eqn:E2.
  pose proof (newServerCertificate_ptr_grows _ _ _ _ _ _ _ E2) as H2.
  assert (H12 : h ⊆ h2) by (etrans; eassumption).
  destruct c2 as [l|], e2; try exact H12.
  destruct (Ptr.CreateCertificate_args h2 a k1 (Some l)) as [[[[t p] pub] s]|]; [|exact H12].
  destruct (x509_CreateCertificate w2 t p pub s) as [[der|e] w3]; [|exact H12].
  destruct (Ptr.alloc h2 _) as [l3 h3] eqn:E3. cbn.
  etrans; [exact H12|]. apply (alloc_grows _ _ _ _ E3).
Qed.


Lemma load_weaken (h h' : Ptr.heap) (l : Ptr.loc) :
  h ⊆ h' ->
  (forall v, Ptr.load_PrivateKey h l = Some v -> Ptr.load_PrivateKey h' l = Some v) /\
  (forall v, Ptr.load_x509 h l = Some v -> Ptr.load_x509 h' l = Some v) /\
  (forall v, Ptr.load_certificate h l = Some v -> Ptr.load_certificate h' l = Some v) /\
  (forall v, Ptr.load_authority h l = Some v -> Ptr.load_authority h' l = Some v).
Proof.
  intros Hsub.
  unfold Ptr.load_PrivateKey, Ptr.load_x509, Ptr.load_certificate, Ptr.load_authority.
  destruct (h !! l) as [obj|] eqn:E.
  - rewrite (lookup_weaken _ _ _ _ E Hsub). auto.
  - repeat split; discriminate.
Qed.

Lemma view_key_weaken (h h' : Ptr.heap) (p : option Ptr.loc) (K : option PrivateKey.t) :
  h ⊆ h' -> Ptr.view_key h p = Some K -> Ptr.view_key h' p = Some K.
Proof.
  intros Hsub. destruct p as [l|]; cbn; [|auto].
  destruct (Ptr.load_PrivateKey h l) as [v|] eqn:E; [|discriminate].
  now rewrite (proj1 (load_weaken _ _ l Hsub) _ E).
Qed.

Lemma view_certificate_weaken (h h' : Ptr.heap) (l : Ptr.loc) (c : certificate.t) :
  h ⊆ h' -> Ptr.view_certificate h l = Some c -> Ptr.view_certificate h' l = Some c.
Proof.
  intros Hsub. unfold Ptr.view_certificate.
  destruct (Ptr.load_certificate h l) as [[[kp xp] d]|] eqn:E; [|discriminate].
  rewrite (proj1 (proj2 (proj2 (load_weaken _ _ l Hsub))) _ E).
  destruct (Ptr.view_key h kp) as [K|] eqn:EK; [|discriminate].
  rewrite (view_key_weaken _ _ _ _ Hsub EK).
  destruct (Ptr.load_x509 h xp) as [x|] eqn:EX; [|discriminate].
  now rewrite (proj1 (proj2 (load_weaken _ _ xp Hsub)) _ EX).
Qed.

Lemma view_authority_weaken (h h' : Ptr.heap) (l : Ptr.loc) (A : authority.t) :
  h ⊆ h' -> Ptr.view_authority h l = Some A -> Ptr.view_authority h' l = Some A.
Proof.
  intros Hsub. unfold Ptr.view_authority.
  destruct (Ptr.load_authority h l) as [cp|] eqn:E; [|discriminate].
  rewrite (proj2 (proj2 (proj2 (load_weaken _ _ l Hsub))) _ E).
  destruct cp as [cl|]; cbn; [|auto].
  destruct (Ptr.view_certificate h cl) as [c|] eqn:EC; [|discriminate].
  now rewrite (view_certificate_weaken _ _ _ _ Hsub EC).
Qed.

(** The arguments read through pointers are the ones the value-level
    [NewCert] takes out of the authority and the key. *)
Lemma CreateCertificate_args_view (h : Ptr.heap) (a certp : Ptr.loc)
    (k : option Ptr.loc) (template : x509.Certificate)
    (A : authority.t) (K : option PrivateKey.t) :
  Ptr.load_x509 h certp = Some template ->
  Ptr.view_authority h a = Some A ->
  Ptr.view_key h k = Some K ->
  Ptr.CreateCertificate_args h a k (Some certp) =
    match authority.c A, K with
    | Some ac, Some k' =>
        match PrivateKey.privateKey k', certificate.privateKey ac with
        | Some key, Some ak =>
            match PrivateKey.privateKey ak with
            | Some signer => Some (template, certificate.cert ac, rsa.Public key, signer)
            | None => None
            end
        | _, _ => None
        end
    | _, _ => None
    end.
Proof.
  intros Ht HA HK. unfold Ptr.CreateCertificate_args. cbn. rewrite Ht. cbn.
  unfold Ptr.view_authority in HA.
  destruct (Ptr.load_authority h a) as [cp|]; [|discriminate]. cbn.
  destruct cp as [cl|]; cbn in HA |- *; [|inversion HA; reflexivity].
  unfold Ptr.view_certificate in HA.
  destruct (Ptr.load_certificate h cl) as [[[kp xp] d]|]; [|discriminate]. cbn.
  destruct (Ptr.view_key h kp) as [AK|] eqn:EAK; [|discriminate].
  destruct (Ptr.load_x509 h xp) as [parent|]; [|discriminate]. cbn.
  inversion HA; subst; clear HA. cbn.
  destruct k as [kl|]; cbn in HK |- *; [|inversion HK; reflexivity].
  destruct (Ptr.load_PrivateKey h kl) as [kk|]; [|discriminate]. inversion HK; subst; clear HK. cbn.
  destruct kk as [key|]; cbn; [|reflexivity].
  destruct kp as [akl|]; cbn in EAK |- *; [|inversion EAK; reflexivity].
  destruct (Ptr.load_PrivateKey h akl) as [akk|]; [|discriminate]. inversion EAK; subst; clear EAK. cbn.
  destruct akk; reflexivity.
Qed.


Lemma key_or_new_ptr_view (k k1 : option Ptr.loc) (h h1 : Ptr.heap) (w w1 : World)
    (e1 : option error) (K : option PrivateKey.t) :
  Ptr.key_or_new k h w = ((k1, e1), h1, w1) ->
  Ptr.view_key h k = Some K ->
  exists K1, key_or_new K w = ((K1, e1), w1) /\ Ptr.view_key h1 k1 = Some K1.
Proof.
  destruct k as [l|]; cbn.
  - intros [= <- <- <- <-] HK. exists K. split; [|exact HK].
    cbn in HK. destruct (Ptr.load_PrivateKey h l); [|discriminate].
    inversion HK; reflexivity.
  - intros H [= <-]. cbn. unfold Ptr.NewPrivateKey in H. unfold NewPrivateKey.
    destruct (newKey w) as [[key|e] w2].
    + destruct (Ptr.alloc h _) as [l h2] eqn:E. inversion H; subst.
      eexists. split; [reflexivity|]. cbn. unfold Ptr.load_PrivateKey.
      now rewrite (proj2 (alloc_grows _ _ _ _ E)).
    + inversion H; subst. eexists. split; reflexivity.
Qed.

Lemma newServerCertificate_ptr_view (o : CertOptions) (c2 : option Ptr.loc)
    (h h2 : Ptr.heap) (w w2 : World) (e2 : option error) :
  Ptr.newServerCertificate o h w = ((c2, e2), h2, w2) ->
  (c2 = None /\ newServerCertificate o w = ((None, e2), w2)) \/
  (exists l template,
     c2 = Some l /\ newServerCertificate o w = ((Some template, e2), w2) /\
     Ptr.load_x509 h2 l = Some template).
Proof.
  unfold Ptr.newServerCertificate.
  destruct (newServerCertificate o w) as [[[t|] e] w'].
  - destruct (Ptr.alloc h _) as [l h'] eqn:E. intros [= <- <- <- <-]. right.
    exists l, t. repeat split. unfold Ptr.load_x509.
    now rewrite (proj2 (alloc_grows _ _ _ _ E)).
  - intros [= <- <- <- <-]. now left.
Qed.

(** The pointer-level [NewCert] computes what the value-level one does:
    same outcome, same error, same world, and the certificate it allocates
    reads back as the value-level result. *)
Lemma authority_NewCert_ptr_refines (a : Ptr.loc) (k : option Ptr.loc)
    (o : CertOptions) (h : Ptr.heap) (w : World)
    (A : authority.t) (K : option PrivateKey.t) :
  Ptr.view_authority h a = Some A ->
  Ptr.view_key h k = Some K ->
  match Ptr.authority_NewCert a k o h w with
  | (Panics, _, _) => authority_NewCert A K o w = Panics
  | (Returns (cp, err), h', w') =>
      exists c, Ptr.view_certificate_opt h' cp = Some c /\
                authority_NewCert A K o w = Returns ((c, err), w')
  end.
Proof.
  intros HA HK. unfold Ptr.authority_NewCert, authority_NewCert.
  destruct (Ptr.key_or_new k h w) as [[[k1 e1] h1] w1] eqn:E1.
  pose proof (key_or_new_ptr_grows _ _ _ _ _ _ _ E1) as H1.
  destruct (key_or_new_ptr_view _ _ _ _ _ _ _ _ E1 HK) as (K1 & -> & HK1).
  destruct e1 as [e1|]; [exists None; split; reflexivity|].
  destruct (Ptr.newServerCertificate o h1 w1) as [[[c2 e2] h2] w2] eqn:E2.
  pose proof (newServerCertificate_ptr_grows _ _ _ _ _ _ _ E2) as H2.
  destruct (newServerCertificate_ptr_view _ _ _ _ _ _ _ E2)
    as [[-> ->]|(l & t & -> & -> & Ht)].
  { destruct e2; [exists None; split; reflexivity|reflexivity]. }
  destruct e2 as [e2|]; [exists None; split; reflexivity|].
  assert (HA2 : Ptr.view_authority h2 a = Some A).
  { eapply view_authority_weaken; [|exact HA]. etrans; eassumption. }
  assert (HK2 : Ptr.view_key h2 k1 = Some K1).
  { eapply view_key_weaken; eassumption. }
  rewrite (CreateCertificate_args_view _ _ _ _ _ _ _ Ht HA2 HK2).
  destruct (authority.c A) as [ac|]; [|reflexivity].
  destruct K1 as [k'|]; [|reflexivity].
  destruct (PrivateKey.privateKey k') as [key|]; [|reflexivity].
  destruct (certificate.privateKey ac) as [ak|]; [|reflexivity].
  destruct (PrivateKey.privateKey ak) as [signer|]; [|reflexivity].
  destruct (x509_CreateCertificate w2 t (certificate.cert ac) (rsa.Public key) signer)
    as [[der|e] w3]; [|exists None; split; reflexivity].
  destruct (Ptr.alloc h2 _) as [l3 h3] eqn:E3.
  destruct (alloc_grows _ _ _ _ E3) as [H3 Hl3].
  eexists. split; [|reflexivity]. cbn. unfold Ptr.view_certificate, Ptr.load_certificate.
  rewrite Hl3, (view_key_weaken _ _ _ _ H3 HK2).
  now rewrite (proj1 (proj2 (load_weaken _ _ l H3)) _ Ht).
Qed.

(** C10.  [a.NewCert] writes to no object that existed before the call: the
    store it leaves holds every old object unchanged, so the value of [a]
    (its certificate, DER bytes and key) reads the same afterwards, whatever
    the call returned.  The [authority] struct has the one field [c], so
    there is nowhere for it to record the issued certificate. *)
Theorem NewCert_leaves_authority_unchanged (a : Ptr.loc) (k : option Ptr.loc)
    (o : CertOptions) (h : Ptr.heap) (w : World) :
  let h' := (Ptr.authority_NewCert a k o h w).1.2 in
  (forall l obj, h !! l = Some obj -> h' !! l = Some obj) /\
  (forall A, Ptr.view_authority h a = Some A -> Ptr.view_authority h' a = Some A).
Proof.
  intros h'. pose proof (authority_NewCert_ptr_grows a k o h w) as Hsub.
  fold h' in Hsub. split.
  - intros l obj Hl. exact (lookup_weaken _ _ _ _ Hl Hsub).
  - intros A. now apply view_authority_weaken.
Qed.

End PtrProperties.

(** ** The instance meets the contracts *)
Section SimContracts.
Import Sim.




Lemma only_CommonName_eq (n : pkix.Name) :
  only_CommonName n = true -> n = pkix.Name_of_CommonName (pkix.CommonName n).
Proof.
  destruct n as [c o u l p s z sn cn]. unfold only_CommonName. cbn.
  destruct c, o, u, l, p, s, z, sn; try discriminate. reflexivity.
Qed.

Lemma byte_of_Z_value (z : Z) (b : byte) :
  byte_of_Z z = Some b -> Z.of_nat (Byte.to_nat b) = z.
Proof.
  unfold byte_of_Z. destruct (0 <=? z) eqn:E; [|discriminate].
  intros H. apply Byte.to_of_nat in H. apply Z.leb_le in E. lia.
Qed.

Lemma Sim_CreateCertificate_signs : CreateCertificate_signs (World := World).
Proof.
  intros w w' template parent pub priv der. cbn. unfold CreateCertificate.
  destruct (only_CommonName (x509.Subject parent)) eqn:Hcn; [|discriminate].
  destruct (byte_of_Z (rsa.N (rsa.Public priv))) as [s|] eqn:Hs; [|discriminate].
  destruct (byte_of_Z (rsa.N pub)) as [p|]; [|discriminate].
  destruct (Byte.of_nat _) as [l|] eqn:Hl; [|discriminate].
  intros [= <- <-]. apply Byte.to_of_nat in Hl.
  unfold ParseCertificate. rewrite Hl.
  set (issuer := list_byte_of_string (pkix.CommonName (x509.Subject parent))).
  set (subject := list_byte_of_string (pkix.CommonName (x509.Subject template))).
  destruct (_ <? _)%nat eqn:Hlen.
  { apply Nat.ltb_lt in Hlen. rewrite List.length_app in Hlen. lia. }
  eexists. split; [reflexivity|]. cbn. split.
  - rewrite firstn_app, Nat.sub_diag, firstn_all, firstn_O, app_nil_r.
    subst issuer. rewrite string_of_list_byte_of_string.
    symmetry. now apply only_CommonName_eq.
  - unfold checkSignature. cbn. apply Z.eqb_eq. now apply byte_of_Z_value.
Qed.

Lemma Sim_ParseCertificate_keeps_Raw : ParseCertificate_keeps_Raw (World := World).
Proof.
  intros der parsed. cbn. unfold ParseCertificate.
  destruct der as [|s [|p [|l names]]]; try discriminate.
  destruct (_ <? _)%nat; [discriminate|]. intros [= <-]. cbn. split; [reflexivity|discriminate].
Qed.

Lemma Sim_pem_round_trip : pem_round_trip (World := World).
Proof.
  intros der b. exists (x2d :: x0b :: list_byte_of_string "CERTIFICATE" ++ der), [].
  split; [reflexivity|]. split; [discriminate|].
  cbn. reflexivity.
Qed.

Lemma Sim_MarshalPKIXPublicKey_rejects_private :
  MarshalPKIXPublicKey_rejects_private (World := World).
Proof. intros p. eexists. reflexivity. Qed.

End SimContracts.

Section SimUniform.
Import Sim.

Lemma be_acc (bs : list byte) (acc : Z) :
  be bs acc = acc * 256 ^ Z.of_nat (List.length bs) + be bs 0.
Proof.
  revert acc. induction bs as [|b bs IH]; intros acc; cbn [be List.length].
  - cbn. lia.
  - rewrite IH, (IH (0 * 256 + _)), Nat2Z.inj_succ, Z.pow_succ_r by lia. ring.
Qed.

Lemma be_bound (bs : list byte) : 0 <= be bs 0 < 256 ^ Z.of_nat (List.length bs).
Proof.
  induction bs as [|b bs IH]; cbn [be List.length]; [cbn; lia|].
  rewrite be_acc, Nat2Z.inj_succ, Z.pow_succ_r by lia.
  pose proof (Byte.to_nat_bounded b). nia.
Qed.

Lemma be_inj (bs bs' : list byte) :
  List.length bs = List.length bs' -> be bs 0 = be bs' 0 -> bs = bs'.
Proof.
  revert bs'. induction bs as [|b bs IH]; intros [|b' bs']; try discriminate; [reflexivity|].
  cbn [be List.length]. intros [= Hlen] H.
  rewrite (be_acc bs), (be_acc bs'), <- Hlen in H.
  pose proof (be_bound bs) as B. pose proof (be_bound bs') as B'. rewrite <- Hlen in B'.
  set (P := 256 ^ Z.of_nat (List.length bs)) in *.
  assert (Hb : Z.of_nat (Byte.to_nat b) = Z.of_nat (Byte.to_nat b')) by nia.
  assert (Hr : be bs 0 = be bs' 0) by nia.
  f_equal; [|now apply IH].
  apply Nat2Z.inj in Hb.
  pose proof (Byte.of_to_nat b) as E. rewrite Hb, Byte.of_to_nat in E. congruence.
Qed.


Lemma to_be_spec (len : nat) (n : Z) :
  0 <= n < 256 ^ Z.of_nat len ->
  List.length (to_be len n) = len /\ be (to_be len n) 0 = n.
Proof.
  revert n. induction len as [|len IH]; intros n Hn.
  - cbn in *. split; [reflexivity|lia].
  - rewrite Nat2Z.inj_succ, Z.pow_succ_r in Hn by lia.
    set (P := 256 ^ Z.of_nat len) in *.
    assert (HP : 0 < P) by (subst P; apply Z.pow_pos_nonneg; lia).
    assert (Hq : 0 <= n / P < 256).
    { split; [apply Z.div_pos; lia|apply Z.div_lt_upper_bound; lia]. }
    destruct (IH (n mod P)) as [IHl IHv]; [apply Z.mod_pos_bound; exact HP|].
    cbn [to_be List.length be]. fold P. split; [now rewrite IHl|].
    rewrite be_acc, IHl, IHv. fold P.
    destruct (Byte.of_nat (Z.to_nat (n / P))) as [b|] eqn:E.
    + apply Byte.to_of_nat in E. rewrite E, Z2Nat.id by lia.
      pose proof (Z.div_mod n P). lia.
    + apply Byte.of_nat_None_iff in E. lia.
Qed.

(** In the instance a draw below [2^128] is the big-endian value of the
    next sixteen bytes of entropy. *)
Lemma Sim_Int_of_entropy (bs rest : list byte) (t : Z) :
  List.length bs = 16%nat ->
  Int {| entropy := bs ++ rest; clock := t |} (2 ^ 128) =
    (Ok (be bs 0), {| entropy := rest; clock := t |}).
Proof.
  intros Hlen. unfold Int.
  change (2 ^ 128 - 1 =? 0) with false. cbv iota.
  change (Z.log2 (2 ^ 128 - 1) + 1) with 128.
  change (Z.to_nat ((128 + 7) / 8)) with 16%nat.
  cbn [Int_loop]. unfold read. cbn [entropy clock].
  assert (Hge : (List.length (bs ++ rest) <? 16)%nat = false).
  { apply Nat.ltb_ge. rewrite List.length_app. lia. }
  rewrite Hge.
  replace (firstn 16 (bs ++ rest)) with bs
    by (rewrite <- Hlen, firstn_app, Nat.sub_diag, firstn_all, firstn_O, app_nil_r; reflexivity).
  replace (skipn 16 (bs ++ rest)) with rest
    by (rewrite <- Hlen, skipn_app, Nat.sub_diag, skipn_all; reflexivity).
  pose proof (be_bound bs) as B. rewrite Hlen in B.
  change (256 ^ Z.of_nat 16) with (2 ^ 128) in B.
  rewrite Z.land_ones, Z.mod_small by lia.
  destruct (be bs 0 <? 2 ^ 128) eqn:E; [reflexivity|]. apply Z.ltb_ge in E. lia.
Qed.

Lemma Sim_serial_of_entropy (bs rest : list byte) (t : Z) :
  List.length bs = 16%nat ->
  randomSerialNumber {| entropy := bs ++ rest; clock := t |} =
    ((Some (be bs 0), None), {| entropy := rest; clock := t |}).
Proof.
  intros Hlen. rewrite randomSerialNumber_is_rand_Int. cbn [rand_Int lib].
  now rewrite (Sim_Int_of_entropy _ _ _ Hlen).
Qed.

(** Uniformity in the instance: every value below [2^128] is the serial
    number of exactly one sixteen-byte draw, so uniform entropy bytes give
    a uniform serial number. *)
Lemma Sim_serial_uniform (n : Z) :
  0 <= n < 2 ^ 128 ->
  exists bs,
    List.length bs = 16%nat /\
    (forall rest t,
       randomSerialNumber {| entropy := bs ++ rest; clock := t |} =
         ((Some n, None), {| entropy := rest; clock := t |})) /\
    (forall bs',
       List.length bs' = 16%nat ->
       fst (fst (randomSerialNumber {| entropy := bs'; clock := 0 |})) = Some n ->
       bs' = bs).
Proof.
  intros Hn. destruct (to_be_spec 16 n) as [Hl Hv]; [exact Hn|].
  exists (to_be 16 n). split; [exact Hl|]. split.
  - intros rest t. rewrite (Sim_serial_of_entropy _ _ _ Hl). now rewrite Hv.
  - intros bs' Hl' H. rewrite <- (app_nil_r bs') in H.
    rewrite (Sim_serial_of_entropy _ _ _ Hl') in H. cbn in H.
    apply be_inj; [congruence|]. rewrite Hv. congruence.
Qed.





End SimUniform.

(** ** The embedding at work

    The scenario of the spec run in the instance, followed by one concrete
    run for each theorem above that has a premise. *)
Section Runs.
Import Sim.

Example root_is_created :
  NewAuthority None root_options w0 = Returns ((Some root, None), w1).
Proof. vm_compute. reflexivity. Qed.

Example root_der_parses : x509_ParseCertificate root_der = Ok root_cert.
Proof. reflexivity. Qed.

Example root_in_store : Ptr.view_authority h0 4%positive = Some root.
Proof. vm_compute. reflexivity. Qed.

Lemma decodePEMData_failures_run :
  decodePEMData [] = (None, Some (errors_New "zero-length PEM block")) /\
  ParseKeyPEM [x00] = Returns (None, Some (errors_New "no PEM block could be decoded")).
Proof.
  split.
  - apply (proj1 (decodePEMData_failures [] None)). reflexivity.
  - apply (proj1 (proj2 (decodePEMData_failures [x00] None))); [discriminate|reflexivity].
Defined.

Lemma parseCertificatePEM_accepts_wrong_tag_run :
  fst (pem_Decode wrong_tag_pem) =
    Some {| pem.Type_ := "RSA PRIVATE KEY"; pem.Headers := []; pem.Bytes := root_der |} /\
  ParseCertificatePEM wrong_tag_pem None =
    Returns (Some {| certificate.privateKey := None; certificate.cert := root_cert;
                     certificate.der := root_der |}, None) /\
  ParseAuthorityPEM wrong_tag_pem (Some root_key) = Returns (Some root, None).
Proof.
  split; [reflexivity|]. split.
  - apply (parseCertificatePEM_accepts_wrong_tag wrong_tag_pem None
             {| pem.Type_ := "RSA PRIVATE KEY"; pem.Headers := []; pem.Bytes := root_der |}
             [] root_cert); [discriminate|reflexivity|discriminate|reflexivity].
  - apply (parseCertificatePEM_accepts_wrong_tag wrong_tag_pem (Some root_key)
             {| pem.Type_ := "RSA PRIVATE KEY"; pem.Headers := []; pem.Bytes := root_der |}
             [] root_cert); [discriminate|reflexivity|discriminate|reflexivity].
Defined.

Lemma ParseKeyPEM_rejects_wrong_tag_run :
  ParseKeyPEM (fst (certDERToPEM root_der)) =
    Returns (None, Some (fmt_Errorf "PEM block is not of type RSA PRIVATE KEY: %q"
                                    "CERTIFICATE")).
Proof.
  apply (ParseKeyPEM_rejects_wrong_tag (fst (certDERToPEM root_der))
           {| pem.Type_ := "CERTIFICATE"; pem.Headers := []; pem.Bytes := root_der |} []);
    [discriminate|reflexivity|discriminate].
Defined.

Lemma PublicKey_GetPEM_always_fails_run :
  exists err, PublicKey_GetPEM (PrivateKey_Public root_key) = ([], Some err).
Proof.
  apply (PublicKey_GetPEM_always_fails root_key).
  exact Sim_MarshalPKIXPublicKey_rejects_private.
Defined.

Example leaf_is_issued :
  authority_NewCert root None leaf_options w1 = Returns ((Some leaf, None), w2).
Proof. vm_compute. reflexivity. Qed.

Lemma NewCert_keeps_the_template_run :
  x509.Raw (certificate.cert leaf) = [] /\ ~ consistent leaf.
Proof.
  apply (NewCert_keeps_the_template root None leaf_options w1 w2 leaf).
  - exact Sim_ParseCertificate_keeps_Raw.
  - vm_compute. reflexivity.
Defined.

Lemma NewCert_issued_by_authority_run :
  exists ac ak signer parsed,
    authority.c root = Some ac /\
    certificate.privateKey ac = Some ak /\
    PrivateKey.privateKey ak = Some signer /\
    x509_ParseCertificate (certificate.der leaf) = Ok parsed /\
    x509.Issuer parsed = x509.Subject (certificate.cert ac) /\
    x509_checkSignature (rsa.Public signer) parsed = true.
Proof.
  apply (NewCert_issued_by_authority root None leaf_options w1 w2 leaf).
  - exact Sim_CreateCertificate_signs.
  - vm_compute. reflexivity.
Defined.

Lemma NewAuthority_is_ParseAuthorityDER_run :
  exists k' key template wa wb der parsed,
    key_or_new None w0 = ((Some k', None), wa) /\
    (forall k0 : PrivateKey.t, None = Some k0 -> k' = k0) /\
    PrivateKey.privateKey k' = Some key /\
    newAuthorityCertificate root_options wa = ((Some template, None), wb) /\
    x509_CreateCertificate wb template template (rsa.Public key) key = (Ok der, w1) /\
    ParseAuthorityDER der (Some k') = (Some root, None) /\
    x509_ParseCertificate der = Ok parsed /\
    root = {| authority.c :=
                Some {| certificate.privateKey := Some k';
                        certificate.cert := parsed;
                        certificate.der := der |} |}.
Proof.
  apply (NewAuthority_is_ParseAuthorityDER None root_options w0 w1 root).
  vm_compute. reflexivity.
Defined.

Lemma authority_PEM_round_trip_run :
  exists c text key c2,
    authority.c root = Some c /\
    authority_GetPEM root = Returns (text, None) /\
    authority_GetKey root = Returns key /\
    ParseAuthorityPEM text key = Returns (Some {| authority.c := Some c2 |}, None) /\
    certificate.der c2 = certificate.der c.
Proof.
  apply (authority_PEM_round_trip None root_options w0 w1 root).
  - exact Sim_pem_round_trip.
  - vm_compute. reflexivity.
Defined.

Lemma template_validity_window_run :
  (exists ca cl,
     newAuthorityCertificate root_options w0k = ((Some ca, None), w1) /\
     newServerCertificate root_options w0k = ((Some cl, None), w1) /\
     x509.NotBefore ca = 1000 /\
     x509.NotBefore cl = 1000 /\
     time.Sub (x509.NotAfter ca) (x509.NotBefore ca) = ValidFor root_options /\
     time.Sub (x509.NotAfter cl) (x509.NotBefore cl) = ValidFor root_options) /\
  (exists sn wa,
     randomSerialNumber w0k = ((sn, None), wa) /\
     time_Now wa = (1000, w1) /\
     time.Sub 86400000001000 1000 = ValidFor root_options) /\
  (exists sn wa,
     randomSerialNumber w1k = ((sn, None), wa) /\
     time_Now wa = (1001, w2) /\
     time.Sub 3600000001001 1001 = ValidFor leaf_options) /\
  (exists template wa wb pub key der,
     newAuthorityCertificate root_options wa = ((Some template, None), wb) /\
     x509_CreateCertificate wb template template pub key = (Ok der, w1) /\
     time.Sub (x509.NotAfter template) (x509.NotBefore template) = ValidFor root_options) /\
  (exists wa wb parent pub signer,
     newServerCertificate leaf_options wa = ((Some (certificate.cert leaf), None), wb) /\
     x509_CreateCertificate wb (certificate.cert leaf) parent pub signer
       = (Ok (certificate.der leaf), w2) /\
     time.Sub (x509.NotAfter (certificate.cert leaf)) (x509.NotBefore (certificate.cert leaf))
       = ValidFor leaf_options).
Proof.
  split; [|split; [|split; [|split]]].
  - apply (proj1 (proj2 (template_validity_window root_options))
             w0k 11999540573713240546762995501040600839
             {| entropy := tape 25; clock := 1000 |} 1000 w1);
      vm_compute; reflexivity.
  - apply (proj1 (template_validity_window root_options) w0k w1
             (authority_template root_options 11999540573713240546762995501040600839 1000)).
    left. vm_compute. reflexivity.
  - apply (proj1 (template_validity_window leaf_options) w1k w2 (certificate.cert leaf)).
    right. vm_compute. reflexivity.
  - apply (proj1 (proj2 (proj2 (template_validity_window root_options))) None w0 w1 root).
    vm_compute. reflexivity.
  - apply (proj2 (proj2 (proj2 (template_validity_window leaf_options))) root None w1 w2 leaf).
    vm_compute. reflexivity.
Defined.


Lemma authorities_consistent_run :
  exists c, authority.c root = Some c /\ consistent c.
Proof.
  apply (proj2 (proj2 (authorities_consistent None root)) root_options w0 w1).
  vm_compute. reflexivity.
Defined.

Lemma authority_NewCert_ptr_refines_run :
  match Ptr.authority_NewCert 4%positive None leaf_options h0 w1 with
  | (Panics, _, _) => authority_NewCert root None leaf_options w1 = Panics
  | (Returns (cp, err), h', w') =>
      exists c, Ptr.view_certificate_opt h' cp = Some c /\
                authority_NewCert root None leaf_options w1 = Returns ((c, err), w')
  end.
Proof.
  apply (authority_NewCert_ptr_refines 4%positive None leaf_options h0 w1 root None);
    vm_compute; reflexivity.
Defined.

Lemma NewCert_leaves_authority_unchanged_run :
  Ptr.view_authority (Ptr.authority_NewCert 4%positive None leaf_options h0 w1).1.2 4%positive
    = Some root.
Proof.
  apply (proj2 (NewCert_leaves_authority_unchanged 4%positive None leaf_options h0 w1)).
  vm_compute. reflexivity.
Defined.

End Runs.

(** ** Further properties of the package *)
Section Coverage.
Context {World : Type} `{Lib : !Collaborators World}.

Ltac case_run H :=
  repeat match type of H with
         | context [match ?x with _ => _ end] =>
             let E := fresh "E" in destruct x eqn:E; try discriminate H
         end.

(** *** Value or error *)

Lemma parseCertificateDER_one (data : DER) (k : option PrivateKey.t) :
  one_of (parseCertificateDER data k).
Proof.
  unfold parseCertificateDER, one_of.
  destruct (x509_ParseCertificate data); eauto.
Qed.

Lemma ParseAuthorityDER_one (data : DER) (k : option PrivateKey.t) :
  one_of (ParseAuthorityDER data k).
Proof.
  unfold ParseAuthorityDER.
  destruct (parseCertificateDER_one data k) as [[c ->]|[e ->]]; unfold one_of; eauto.
Qed.

Lemma ParseKeyDER_one (data : DER) : one_of (ParseKeyDER data).
Proof.
  unfold ParseKeyDER, one_of. destruct (x509_ParsePKCS1PrivateKey data); eauto.
Qed.

Lemma key_or_new_one (k : option PrivateKey.t) (w : World) :
  one_of (fst (key_or_new k w)).
Proof.
  destruct k as [k0|]; cbn; [left; eauto|].
  unfold NewPrivateKey, one_of. destruct (newKey w) as [[key|e] w']; cbn; eauto.
Qed.

Lemma decodePEMData_cases (data : list byte) :
  (exists b, decodePEMData data = (Some b, None)) \/
  (exists err, decodePEMData data = (None, Some err)).
Proof.
  unfold decodePEMData. destruct (Nat.eqb (List.length data) 0); [eauto|].
  destruct (pem_Decode data) as [[b|] rest]; eauto.
Qed.

(** Value or error.  The key parsers, the unexported certificate parsers,
    the authority parsers, [NewPrivateKey], [NewAuthority] and [NewCert]
    hand back an entity with a nil error or nil with an error, never both
    and never neither; the PEM parsers never panic.  The exported
    [ParseCertificateDER] and [ParseCertificatePEM] are the exception in
    what they hand back: their [Certificate] is never the nil interface,
    beside an error it holds a nil [*certificate], and it is of that
    pointer and the error that exactly one is set. *)
Theorem value_or_error :
  (forall data, one_of (ParseKeyDER data)) /\
  (forall data, exists r, ParseKeyPEM data = Returns r /\ one_of r) /\
  (forall data k, one_of (parseCertificateDER data k)) /\
  (forall data k, exists r, parseCertificatePEM data k = Returns r /\ one_of r) /\
  (forall data k, exists p err,
     ParseCertificateDER_interface data k = (Certificate_of p, err) /\
     one_of (p, err)) /\
  (forall data k, exists p err,
     ParseCertificatePEM_interface data k = Returns (Certificate_of p, err) /\
     one_of (p, err)) /\
  (forall data k, one_of (ParseAuthorityDER data k)) /\
  (forall data k, exists r, ParseAuthorityPEM data k = Returns r /\ one_of r) /\
  (forall w, one_of (fst (NewPrivateKey w))) /\
  (forall k o w r w', NewAuthority k o w = Returns (r, w') -> one_of r) /\
  (forall a k o w r w', authority_NewCert a k o w = Returns (r, w') -> one_of r).
Proof.
  assert (HP : forall data k, exists r,
             parseCertificatePEM data k = Returns r /\ one_of r).
  { intros data k. unfold parseCertificatePEM.
    destruct (decodePEMData_cases data) as [[b ->]|[e ->]].
    - eexists. split; [reflexivity|apply parseCertificateDER_one].
    - eexists. split; [reflexivity|right; eauto]. }
  repeat split.
  - apply ParseKeyDER_one.
  - intros data. unfold ParseKeyPEM.
    destruct (decodePEMData_cases data) as [[b ->]|[e ->]].
    + destruct (negb _); eexists; (split; [reflexivity|]);
        [right; eauto|apply ParseKeyDER_one].
    + eexists. split; [reflexivity|right; eauto].
  - intros data k. apply parseCertificateDER_one.
  - exact HP.
  - intros data k. unfold ParseCertificateDER_interface.
    pose proof (parseCertificateDER_one data k) as H1.
    destruct (parseCertificateDER data k) as [p err]. eauto.
  - intros data k. unfold ParseCertificatePEM_interface.
    destruct (HP data k) as ([p err] & -> & H1). eauto.
  - apply ParseAuthorityDER_one.
  - intros data k. unfold ParseAuthorityPEM.
    destruct (HP data k) as (r & -> & [[c ->]|[e ->]]);
      eexists; (split; [reflexivity|]); [left|right]; eauto.
  - intros w. apply (key_or_new_one None w).
  - intros k o w r w' H. destruct (NewAuthority_inv _ _ _ _ _ H) as [[e ->]|H'].
    + right; eauto.
    + destruct H' as (k' & key & t & w1 & w2 & der & _ & _ & _ & _ & ->).
      apply ParseAuthorityDER_one.
  - intros a k o w r w' H. unfold authority_NewCert in H. case_run H;
      inversion H; subst; unfold one_of; eauto.
Qed.

(** *** PEM parsers and DER parsers *)

(** The PEM parsers are the DER parsers applied to the payload of the
    first block: what follows the block and the block's headers are
    dropped, [ParseKeyPEM] looks at the tag first, the certificate and
    authority parsers do not depend on it. *)
Theorem PEM_parsers_factor_through_DER
    (data : PEM) (k : option PrivateKey.t) (block : pem.Block) (rest : list byte) :
  data <> [] -> pem_Decode data = (Some block, rest) ->
  ParseKeyPEM data =
    Returns (if String.eqb (pem.Type_ block) "RSA PRIVATE KEY"
             then ParseKeyDER (pem.Bytes block)
             else (None, Some (fmt_Errorf "PEM block is not of type RSA PRIVATE KEY: %q"
                                          (pem.Type_ block)))) /\
  ParseCertificatePEM data k = Returns (ParseCertificateDER (pem.Bytes block) k) /\
  ParseAuthorityPEM data k = Returns (ParseAuthorityDER (pem.Bytes block) k).
Proof.
  intros Hne Hd. pose proof (decodePEMData_block _ _ _ Hne Hd) as Hb.
  unfold ParseKeyPEM, ParseAuthorityPEM, ParseCertificatePEM, parseCertificatePEM,
    ParseAuthorityDER, ParseCertificateDER.
  rewrite Hb. split; [|split].
  - destruct (String.eqb _ _); reflexivity.
  - reflexivity.
  - destruct (parseCertificateDER (pem.Bytes block) k) as [c [e|]]; reflexivity.
Qed.

(** *** Keys *)

(** The key held by an entity is the one the caller supplied, nil
    included for the parsers.  A constructor given a key generates none
    and leaves the world as it is at that step; given nil it holds the key
    that [rsa.GenerateKey] made with [RSAKeyBits] bits. *)
Theorem GetKey_is_the_supplied_key :
  (forall data k c, ParseCertificateDER data k = (Some c, None) ->
     certificate_GetKey c = k) /\
  (forall data k c, ParseCertificatePEM data k = Returns (Some c, None) ->
     certificate_GetKey c = k) /\
  (forall data k a, ParseAuthorityDER data k = (Some a, None) ->
     authority_GetKey a = Returns k) /\
  (forall data k a, ParseAuthorityPEM data k = Returns (Some a, None) ->
     authority_GetKey a = Returns k) /\
  (forall k o w a w', NewAuthority k o w = Returns ((Some a, None), w') ->
     exists k', authority_GetKey a = Returns (Some k') /\
                fst (key_or_new k w) = (Some k', None)) /\
  (forall a k o w c w', authority_NewCert a k o w = Returns ((Some c, None), w') ->
     exists k', certificate_GetKey c = Some k' /\
                fst (key_or_new k w) = (Some k', None)) /\
  (forall k w, key_or_new (Some k) w = ((Some k, None), w)) /\
  (forall w k', fst (key_or_new None w) = (Some k', None) ->
     exists key, k' = {| PrivateKey.privateKey := Some key |} /\
                 fst (rsa_GenerateKey w RSAKeyBits) = Ok key).
Proof.
  assert (HD : forall data k c, parseCertificateDER data k = (Some c, None) ->
                 certificate.privateKey c = k).
  { intros data k c H. destruct (parseCertificateDER_inv _ _ _ H) as (p & _ & [= ->]).
    reflexivity. }
  assert (HA : forall data k a, ParseAuthorityDER data k = (Some a, None) ->
                 authority_GetKey a = Returns k).
  { intros data k a H. unfold ParseAuthorityDER in H.
    destruct (parseCertificateDER data k) as [c [e|]] eqn:E; [discriminate|].
    destruct (parseCertificateDER_inv _ _ _ E) as (p & _ & ->).
    inversion H; subst. reflexivity. }
  repeat split.
  - exact HD.
  - intros data k c H. destruct (parseCertificatePEM_inv _ _ _ H) as (b & _ & H1).
    eapply HD, H1.
  - exact HA.
  - intros data k a H. unfold ParseAuthorityPEM in H.
    destruct (parseCertificatePEM data k) as [[c [e|]]|] eqn:E; try discriminate H.
    destruct (parseCertificatePEM_inv _ _ _ E) as (b & _ & H1).
    destruct (parseCertificateDER_inv _ _ _ H1) as (p & _ & ->).
    inversion H; subst. reflexivity.
  - intros k o w a w' H. destruct (NewAuthority_inv _ _ _ _ _ H) as [[e He]|H']; [discriminate|].
    destruct H' as (k' & key & t & w1 & w2 & der & Hk & _ & _ & _ & Hr).
    exists k'. split; [eapply HA; symmetry; exact Hr|now rewrite Hk].
  - intros a k o w c w' H.
    destruct (authority_NewCert_inv _ _ _ _ _ _ H)
      as (k' & key & ac & ak & signer & t & w1 & w2 & der & Hk & _ & _ & _ & _ & _ & _ & ->).
    exists k'. split; [reflexivity|now rewrite Hk].
  - intros w k' H. cbn in H. unfold NewPrivateKey, newKey in *.
    destruct (rsa_GenerateKey w RSAKeyBits) as [[key|e] w1]; inversion H; subst. eauto.
Qed.

Lemma keyed_NewAuthority_returns (k : PrivateKey.t) (key : rsa.PrivateKey)
    (o : CertOptions) (w : World) :
  PrivateKey.privateKey k = Some key -> NewAuthority (Some k) o w <> Panics.
Proof.
  intros Hk H. unfold NewAuthority, authority_Reload in H. cbn in H. rewrite Hk in H.
  destruct (newAuthorityCertificate o w) as [[t e] w2] eqn:Ht.
  destruct e as [e|]; [destruct t; discriminate H|].
  destruct (newAuthorityCertificate_inv _ _ _ _ Ht) as (n & w1 & nb & _ & _ & ->).
  destruct (x509_CreateCertificate _ _ _ _ _) as [[der|e] w3]; discriminate H.
Qed.

(** [NewAuthority] panics in one case only: a key is supplied whose inner
    RSA key is nil (the zero [PrivateKey]) and the serial number was drawn.  *)
Theorem NewAuthority_panics_iff (k : option PrivateKey.t) (o : CertOptions) (w : World) :
  NewAuthority k o w = Panics <->
  k = Some {| PrivateKey.privateKey := None |} /\
  exists sn w1, randomSerialNumber w = ((Some sn, None), w1).
Proof.
  split.
  - intros H. destruct k as [[[key|]]|].
    + now apply keyed_NewAuthority_returns with (key := key) in H.
    + split; [reflexivity|]. unfold NewAuthority in H. cbn in H.
      destruct (newAuthorityCertificate o w) as [[t e] w2] eqn:Ht.
      destruct e as [e|]; [destruct t; discriminate H|].
      destruct (newAuthorityCertificate_inv _ _ _ _ Ht) as (n & w1 & nb & Hsn & _ & _).
      eauto.
    + exfalso. unfold NewAuthority in H.
      destruct (key_or_new None w) as [[k' [e|]] w1] eqn:Hk; [discriminate|].
      destruct (key_or_new_inv _ _ _ _ Hk) as (k0 & -> & _).
      cbn in Hk. destruct (NewPrivateKey_inv _ _ _ Hk) as (key & [= ->]).
      unfold authority_Reload in H. cbn in H.
      destruct (newAuthorityCertificate o w1) as [[t e] w2] eqn:Ht.
      destruct e as [e|]; [destruct t; discriminate H|].
      destruct (newAuthorityCertificate_inv _ _ _ _ Ht) as (n & w3 & nb & _ & _ & ->).
      destruct (x509_CreateCertificate _ _ _ _ _) as [[der|e] w4]; discriminate H.
  - intros [-> (n & w1 & Hsn)]. unfold NewAuthority, newAuthorityCertificate. cbn.
    rewrite Hsn. destruct (time_Now w1). reflexivity.
Qed.

(** A key that the package made ([NewPrivateKey], [ParseKeyDER],
    [ParseKeyPEM]) has its inner RSA key set, and [NewAuthority] given
    such a key returns: it does not panic. *)
Theorem package_keys_are_usable (k : PrivateKey.t) :
  (exists w w', NewPrivateKey w = ((Some k, None), w')) \/
  (exists data, ParseKeyDER data = (Some k, None)) \/
  (exists data, ParseKeyPEM data = Returns (Some k, None)) ->
  (exists key, PrivateKey.privateKey k = Some key) /\
  (forall o w, NewAuthority (Some k) o w <> Panics).
Proof.
  assert (HD : forall data, ParseKeyDER data = (Some k, None) ->
                 exists key, PrivateKey.privateKey k = Some key).
  { intros data H. unfold ParseKeyDER in H.
    destruct (x509_ParsePKCS1PrivateKey data); inversion H; subst. cbn. eauto. }
  intros H.
  assert (Hkey : exists key, PrivateKey.privateKey k = Some key).
  { destruct H as [(w & w' & H)|[(data & H)|(data & H)]].
    - destruct (NewPrivateKey_inv _ _ _ H) as (key & [= ->]). cbn. eauto.
    - eapply HD, H.
    - unfold ParseKeyPEM in H. case_run H; inversion H as [H1]. eapply HD, H1. }
  split; [exact Hkey|]. destruct Hkey as [key Hkey]. intros o w.
  eapply keyed_NewAuthority_returns, Hkey.
Qed.

(** *** Round trips *)

(** An authority the package built, in one shape. *)
Lemma built_authority_shape (a : authority.t) :
  (exists data k, ParseAuthorityDER data k = (Some a, None)) \/
  (exists data k, ParseAuthorityPEM data k = Returns (Some a, None)) \/
  (exists k o w w', NewAuthority k o w = Returns ((Some a, None), w')) ->
  exists c, a = {| authority.c := Some c |} /\ consistent c.
Proof.
  assert (HD : forall data k, ParseAuthorityDER data k = (Some a, None) ->
                 exists c, a = {| authority.c := Some c |} /\ consistent c).
  { intros data k H. unfold ParseAuthorityDER in H.
    destruct (parseCertificateDER data k) as [c [e|]] eqn:E; [discriminate|].
    destruct (parseCertificateDER_inv _ _ _ E) as (p & Hp & ->).
    inversion H; subst. eexists. split; [reflexivity|exact Hp]. }
  intros [(data & k & H)|[(data & k & H)|(k & o & w & w' & H)]].
  - eapply HD, H.
  - unfold ParseAuthorityPEM in H.
    destruct (parseCertificatePEM data k) as [[c [e|]]|] eqn:E; try discriminate H.
    destruct (parseCertificatePEM_inv _ _ _ E) as (b & _ & H1).
    destruct (parseCertificateDER_inv _ _ _ H1) as (p & Hp & ->).
    inversion H; subst. eexists. split; [reflexivity|exact Hp].
  - destruct (NewAuthority_inv _ _ _ _ _ H) as [[e He]|H']; [discriminate|].
    destruct H' as (k' & key & t & w1 & w2 & der & _ & _ & _ & _ & Hr).
    symmetry in Hr. eapply HD, Hr.
Qed.

(** [Reload] gives back an equal authority, with no error, for every
    authority the package built: parsed from DER, parsed from PEM or newly
    created.  Reloading again changes nothing either. *)
Theorem Reload_is_the_identity (a : authority.t) :
  (exists data k, ParseAuthorityDER data k = (Some a, None)) \/
  (exists data k, ParseAuthorityPEM data k = Returns (Some a, None)) \/
  (exists k o w w', NewAuthority k o w = Returns ((Some a, None), w')) ->
  authority_Reload a = Returns (Some a, None).
Proof.
  intros H. destruct (built_authority_shape a H) as (c & -> & Hc).
  unfold authority_Reload, ParseAuthorityDER, parseCertificateDER. cbn.
  unfold consistent in Hc. rewrite Hc. destruct c; reflexivity.
Qed.

(** A consistent certificate survives PEM: [GetPEM] reports no error, and
    [ParseCertificatePEM] of the text with the certificate's own key gives
    the same certificate back. *)
Theorem certificate_PEM_round_trip (c : certificate.t) :
  pem_round_trip -> consistent c ->
  exists text,
    certificate_GetPEM c = (text, None) /\
    ParseCertificatePEM text (certificate_GetKey c) = Returns (Some c, None).
Proof.
  intros Hrt Hc. destruct (Hrt (certificate.der c)) as (out & rest & Henc & Hne & Hdec).
  exists out. unfold certificate_GetPEM, certDERToPEM. split; [exact Henc|].
  unfold ParseCertificatePEM, parseCertificatePEM, parseCertificateDER, certificate_GetKey.
  rewrite (decodePEMData_block _ _ _ Hne Hdec). cbn.
  unfold consistent in Hc. rewrite Hc. destruct c; reflexivity.
Qed.

(** A certificate from [NewCert] holds its template, but its PEM parses
    to a consistent certificate with the same bytes and the same key:
    encode-then-parse is what normalises a leaf. *)
Theorem NewCert_PEM_normalises
    (a : authority.t) (k : option PrivateKey.t) (o : CertOptions)
    (w w' : World) (c : certificate.t) :
  pem_round_trip -> CreateCertificate_signs ->
  authority_NewCert a k o w = Returns ((Some c, None), w') ->
  exists text c2,
    certificate_GetPEM c = (text, None) /\
    ParseCertificatePEM text (certificate_GetKey c) = Returns (Some c2, None) /\
    certificate.der c2 = certificate.der c /\
    certificate.privateKey c2 = certificate.privateKey c /\
    consistent c2.
Proof.
  intros Hrt Hsigns H.
  destruct (authority_NewCert_inv _ _ _ _ _ _ H)
    as (k' & key & ac & ak & signer & t & w1 & w2 & der & _ & _ & _ & _ & _ & _ & Hc & ->).
  destruct (Hsigns _ _ _ _ _ _ _ Hc) as (parsed & Hp & _ & _).
  destruct (Hrt der) as (out & rest & Henc & Hne & Hdec).
  exists out. eexists. unfold certificate_GetPEM, certDERToPEM. cbn. split; [exact Henc|].
  unfold ParseCertificatePEM, parseCertificatePEM, parseCertificateDER, certificate_GetKey.
  rewrite (decodePEMData_block _ _ _ Hne Hdec). cbn. rewrite Hp.
  split; [reflexivity|]. cbn. repeat split. exact Hp.
Qed.

(** A private key survives PEM: for a key whose PKCS#1 encoding parses
    back to it, [GetPEM] returns text with no error and [ParseKeyPEM] of
    that text returns the key. *)
Theorem PrivateKey_PEM_round_trip (k : PrivateKey.t) (key : rsa.PrivateKey) :
  pem_round_trip_tag "RSA PRIVATE KEY" ->
  PrivateKey.privateKey k = Some key ->
  x509_ParsePKCS1PrivateKey (x509_MarshalPKCS1PrivateKey key) = Ok key ->
  exists text,
    PrivateKey_GetPEM k = Returns (text, None) /\
    ParseKeyPEM text = Returns (Some k, None).
Proof.
  intros Hrt Hk Hkey.
  destruct (Hrt (x509_MarshalPKCS1PrivateKey key)) as (out & rest & Henc & Hne & Hdec).
  exists out. unfold PrivateKey_GetPEM. rewrite Hk, Henc. split; [reflexivity|].
  unfold ParseKeyPEM, ParseKeyDER. rewrite (decodePEMData_block _ _ _ Hne Hdec). cbn.
  rewrite Hkey. destruct k as [ik]. cbn in Hk. now subst.
Qed.

(** *** Authorities and certificates *)

(** [ParseAuthorityDER] and [ParseAuthorityPEM] accept exactly what the
    certificate parsers accept and wrap that certificate: nothing checks
    that it is a CA or self-signed.  In particular the bytes of a leaf
    issued by [NewCert] load as an authority whose signer is the leaf's
    key. *)
Theorem ParseAuthority_accepts_any_certificate :
  (forall data k a,
     ParseAuthorityDER data k = (Some a, None) <->
     exists c, ParseCertificateDER data k = (Some c, None) /\
               a = {| authority.c := Some c |}) /\
  (forall data k a,
     ParseAuthorityPEM data k = Returns (Some a, None) <->
     exists c, ParseCertificatePEM data k = Returns (Some c, None) /\
               a = {| authority.c := Some c |}) /\
  (CreateCertificate_signs ->
   forall a k o w c w',
     authority_NewCert a k o w = Returns ((Some c, None), w') ->
     exists a2 k' key,
       ParseAuthorityDER (certificate.der c) (certificate.privateKey c) = (Some a2, None) /\
       certificate.privateKey c = Some k' /\
       PrivateKey.privateKey k' = Some key /\
       signer_of a2 = Some key).
Proof.
  split; [|split].
  - intros data k a. unfold ParseAuthorityDER, ParseCertificateDER.
    destruct (parseCertificateDER_one data k) as [[c ->]|[e ->]]; split.
    + intros [= <-]. eauto.
    + intros (c' & [= <-] & ->). reflexivity.
    + discriminate.
    + intros (c' & H & _). discriminate.
  - intros data k a. unfold ParseAuthorityPEM, ParseCertificatePEM.
    destruct (parseCertificatePEM data k) as [[c [e|]]|] eqn:E; split;
      try discriminate; try (intros (c' & H & _); discriminate).
    + intros [= <-]. destruct (parseCertificatePEM_inv _ _ _ E) as (b & _ & H1).
      destruct (parseCertificateDER_inv _ _ _ H1) as (p & _ & ->). eauto.
    + intros (c' & [= ->] & ->). reflexivity.
  - intros Hsigns a k o w c w' H.
    destruct (authority_NewCert_inv _ _ _ _ _ _ H)
      as (k' & key & ac & ak & signer & t & w1 & w2 & der & _ & Hkey & _ & _ & _ & _ & Hc & ->).
    destruct (Hsigns _ _ _ _ _ _ _ Hc) as (parsed & Hp & _ & _).
    eexists _, k', key. cbn. unfold ParseAuthorityDER, parseCertificateDER. rewrite Hp.
    split; [reflexivity|]. split; [reflexivity|]. split; [exact Hkey|].
    unfold signer_of. cbn. exact Hkey.
Qed.

(** When [NewCert] has its key and its template, it panics exactly when a
    nil pointer stands between it and a key: the authority has no
    certificate struct, no key or a zero key, or the subject's key is the
    zero [PrivateKey]. *)
Theorem NewCert_panics_iff
    (a : authority.t) (k : option PrivateKey.t) (o : CertOptions)
    (w w1 w2 : World) (k' : PrivateKey.t) (sn : Z) :
  key_or_new k w = ((Some k', None), w1) ->
  randomSerialNumber w1 = ((Some sn, None), w2) ->
  (authority_NewCert a k o w = Panics <->
   signer_of a = None \/ PrivateKey.privateKey k' = None).
Proof.
  intros Hk Hsn. unfold authority_NewCert, newServerCertificate, signer_of.
  rewrite Hk, Hsn. destruct (time_Now w2) as [nb w3].
  destruct (authority.c a) as [ac|]; [|tauto].
  destruct (PrivateKey.privateKey k') as [key|];
    destruct (certificate.privateKey ac) as [ak|]; try tauto.
  destruct (PrivateKey.privateKey ak) as [signer|]; [|tauto].
  destruct (x509_CreateCertificate _ _ _ _ _) as [[der|e] w4];
    split; try discriminate; intros [H|H]; discriminate.
Qed.

Lemma NewCert_needs_a_signer
    (a : authority.t) (k : option PrivateKey.t) (o : CertOptions) (w : World) :
  signer_of a = None ->
  (forall c w', authority_NewCert a k o w <> Returns ((Some c, None), w')) /\
  (forall k' w1 sn w2,
     key_or_new k w = ((Some k', None), w1) ->
     randomSerialNumber w1 = ((Some sn, None), w2) ->
     authority_NewCert a k o w = Panics).
Proof.
  intros Hs. split.
  - intros c w' H.
    destruct (authority_NewCert_inv _ _ _ _ _ _ H)
      as (k' & key & ac & ak & signer & t & w1 & w2 & der & _ & _ & _ & Hac & Hak & Hsg & _).
    unfold signer_of in Hs. rewrite Hac, Hak, Hsg in Hs. discriminate.
  - intros k' w1 sn w2 Hk Hsn.
    unfold authority_NewCert, newServerCertificate. rewrite Hk, Hsn.
    destruct (time_Now w2) as [nb w3]. unfold signer_of in Hs.
    destruct (authority.c a) as [ac|]; [|reflexivity].
    destruct (PrivateKey.privateKey k'); destruct (certificate.privateKey ac) as [ak|];
      try reflexivity.
    rewrite Hs. reflexivity.
Qed.

(** An authority loaded without a key cannot issue.  [NewCert] on it never
    returns a certificate: it returns the error of key generation or of the
    serial draw if one of them fails, and otherwise panics on the nil key
    rather than report an error. *)
Theorem keyless_authority_cannot_issue (a : authority.t) :
  (exists data, ParseAuthorityDER data None = (Some a, None)) \/
  (exists data, ParseAuthorityPEM data None = Returns (Some a, None)) ->
  forall k o w,
    (forall c w', authority_NewCert a k o w <> Returns ((Some c, None), w')) /\
    (forall k' w1 sn w2,
       key_or_new k w = ((Some k', None), w1) ->
       randomSerialNumber w1 = ((Some sn, None), w2) ->
       authority_NewCert a k o w = Panics).
Proof.
  intros H k o w. apply NewCert_needs_a_signer.
  assert (HD : forall data, parseCertificateDER data None = (authority.c a, None) -> signer_of a = None).
  { intros data H1. destruct (parseCertificateDER_inv _ _ _ H1) as (p & _ & Hc).
    unfold signer_of. destruct a as [[c|]]; cbn in *; [|reflexivity].
    inversion Hc; subst. reflexivity. }
  destruct H as [(data & H)|(data & H)].
  - unfold ParseAuthorityDER in H.
    destruct (parseCertificateDER data None) as [c [e|]] eqn:E; [discriminate|].
    inversion H; subst. eapply HD, E.
  - unfold ParseAuthorityPEM in H.
    destruct (parseCertificatePEM data None) as [[c [e|]]|] eqn:E; try discriminate H.
    destruct (parseCertificatePEM_inv _ _ _ E) as (b & _ & H1).
    inversion H; subst. eapply HD, H1.
Qed.

(** *** Creating and issuing *)

(** The certificate of a new authority is self-issued and self-signed: its
    issuer and its subject are both the name with the options' common
    name and nothing else, and its signature verifies under the public
    half of the authority's own key. *)
Theorem NewAuthority_is_self_signed
    (k : option PrivateKey.t) (o : CertOptions) (w w' : World) (a : authority.t) :
  CreateCertificate_signs -> CreateCertificate_keeps_subject ->
  NewAuthority k o w = Returns ((Some a, None), w') ->
  exists c key,
    authority.c a = Some c /\
    signer_of a = Some key /\
    x509.Issuer (certificate.cert c) = pkix.Name_of_CommonName (CommonName o) /\
    x509.Subject (certificate.cert c) = pkix.Name_of_CommonName (CommonName o) /\
    x509_checkSignature (rsa.Public key) (certificate.cert c) = true.
Proof.
  intros Hsigns Hsubj H.
  destruct (NewAuthority_inv _ _ _ _ _ H) as [[e He]|H']; [discriminate|].
  destruct H' as (k' & key & t & w1 & w2 & der & _ & Hkey & Ht & Hc & Hr).
  destruct (newAuthorityCertificate_inv _ _ _ _ Ht) as (n & w3 & nb & _ & _ & [= ->]).
  destruct (Hsigns _ _ _ _ _ _ _ Hc) as (parsed & Hp & Hi & Hv).
  destruct (Hsubj _ _ _ _ _ _ _ (CommonName o) Hc eq_refl) as (parsed' & Hp' & Hs).
  rewrite Hp in Hp'. inversion Hp'; subst parsed'.
  unfold ParseAuthorityDER, parseCertificateDER in Hr. rewrite Hp in Hr.
  inversion Hr; subst. eexists _, key. cbn. unfold signer_of. cbn.
  repeat split; assumption.
Qed.

(** The scenario of the spec.  A leaf issued by a new authority parses to
    a certificate whose issuer is the authority's common name, whose
    subject is the leaf's common name, and whose signature verifies under
    the authority's key, whatever world the leaf is issued in. *)
Theorem root_then_leaf
    (k1 k2 : option PrivateKey.t) (o1 o2 : CertOptions)
    (w w1 w2 w3 : World) (a : authority.t) (c : certificate.t) :
  CreateCertificate_signs -> CreateCertificate_keeps_subject ->
  NewAuthority k1 o1 w = Returns ((Some a, None), w1) ->
  authority_NewCert a k2 o2 w2 = Returns ((Some c, None), w3) ->
  exists parsed key,
    x509_ParseCertificate (certificate.der c) = Ok parsed /\
    x509.Issuer parsed = pkix.Name_of_CommonName (CommonName o1) /\
    x509.Subject parsed = pkix.Name_of_CommonName (CommonName o2) /\
    signer_of a = Some key /\
    x509_checkSignature (rsa.Public key) parsed = true.
Proof.
  intros Hsigns Hsubj HA HC.
  destruct (NewAuthority_inv _ _ _ _ _ HA) as [[e He]|H']; [discriminate|].
  destruct H' as (ka & keya & ta & wa & wb & dera & _ & _ & Hta & Hca & Hr).
  destruct (newAuthorityCertificate_inv _ _ _ _ Hta) as (n & wc & nb & _ & _ & [= ->]).
  destruct (Hsubj _ _ _ _ _ _ _ (CommonName o1) Hca eq_refl) as (root & Hroot & Hrs).
  unfold ParseAuthorityDER, parseCertificateDER in Hr. rewrite Hroot in Hr.
  inversion Hr; subst a; clear Hr.
  destruct (authority_NewCert_inv _ _ _ _ _ _ HC)
    as (k' & key & ac & ak & signer & t & wd & we & der & _ & _ & Ht & Hac & Hak & Hsg & Hc & ->).
  cbn in Hac. inversion Hac; subst ac; clear Hac. cbn in Hak, Hc.
  destruct (newServerCertificate_inv _ _ _ _ Ht) as (m & wf & nb' & _ & _ & [= ->]).
  destruct (Hsigns _ _ _ _ _ _ _ Hc) as (parsed & Hp & Hi & Hv).
  destruct (Hsubj _ _ _ _ _ _ _ (CommonName o2) Hc eq_refl) as (parsed' & Hp' & Hs).
  rewrite Hp in Hp'. inversion Hp'; subst parsed'.
  inversion Hak; subst ak; clear Hak.
  exists parsed, signer. cbn. unfold signer_of. cbn.
  repeat split; try assumption. now rewrite Hi.
Qed.

(** What is put up for signing.  [NewAuthority] signs a CA template
    (basic constraints valid, key usage key-encipherment, digital-signature
    and cert-sign, extended usage server-auth) with itself as parent, for
    and with its own key.  [NewCert] signs a template that is no CA and
    sets no usage at all, with the authority's stored certificate as
    parent, for the subject's key and with the authority's key.  Both
    templates name the options' common name and nothing else. *)
Theorem signing_requests (o : CertOptions) :
  (forall k w a w',
     NewAuthority k o w = Returns ((Some a, None), w') ->
     exists k' key t w2 der,
       fst (key_or_new k w) = (Some k', None) /\
       PrivateKey.privateKey k' = Some key /\
       x509_CreateCertificate w2 t t (rsa.Public key) key = (Ok der, w') /\
       x509.IsCA t = true /\ x509.BasicConstraintsValid t = true /\
       x509.KeyUsage_ t = 37 /\
       x509.ExtKeyUsage_ t = [x509.ExtKeyUsageServerAuth] /\
       x509.Subject t = pkix.Name_of_CommonName (CommonName o)) /\
  (forall a k w c w',
     authority_NewCert a k o w = Returns ((Some c, None), w') ->
     exists ac k' key signer t w2,
       authority.c a = Some ac /\
       fst (key_or_new k w) = (Some k', None) /\
       PrivateKey.privateKey k' = Some key /\
       signer_of a = Some signer /\
       x509_CreateCertificate w2 t (certificate.cert ac) (rsa.Public key) signer
         = (Ok (certificate.der c), w') /\
       x509.IsCA t = false /\ x509.BasicConstraintsValid t = true /\
       x509.KeyUsage_ t = 0 /\ x509.ExtKeyUsage_ t = [] /\
       x509.Subject t = pkix.Name_of_CommonName (CommonName o)).
Proof.
  split.
  - intros k w a w' H.
    destruct (NewAuthority_inv _ _ _ _ _ H) as [[e He]|H']; [discriminate|].
    destruct H' as (k' & key & t & w1 & w2 & der & Hk & Hkey & Ht & Hc & _).
    destruct (newAuthorityCertificate_inv _ _ _ _ Ht) as (n & w3 & nb & _ & _ & [= ->]).
    exists k', key, (authority_template o n nb), w2, der. rewrite Hk.
    repeat split; try assumption; reflexivity.
  - intros a k w c w' H.
    destruct (authority_NewCert_inv _ _ _ _ _ _ H)
      as (k' & key & ac & ak & signer & t & w1 & w2 & der & Hk & Hkey & Ht & Hac & Hak & Hsg & Hc & ->).
    destruct (newServerCertificate_inv _ _ _ _ Ht) as (n & w3 & nb & _ & _ & [= ->]).
    exists ac, k', key, signer, (server_template o n nb), w2. rewrite Hk.
    unfold signer_of. rewrite Hac, Hak. cbn.
    repeat split; try assumption; reflexivity.
Qed.

(** Errors are passed on at once and unchanged.  If key generation fails,
    or the serial draw fails, or signing fails, the constructor returns
    that error and no entity, in the world the failed step left: no later
    step runs.  [NewCert] reports a failed draw even on an authority it
    could not sign with. *)
Theorem constructors_fail_fast (o : CertOptions) (err : error) :
  (forall a w w',
     rsa_GenerateKey w RSAKeyBits = (Err err, w') ->
     NewAuthority None o w = Returns ((None, Some err), w') /\
     authority_NewCert a None o w = Returns ((None, Some err), w')) /\
  (forall a k w k' w1 w',
     key_or_new k w = ((Some k', None), w1) ->
     rand_Int w1 (2 ^ 128) = (Err err, w') ->
     NewAuthority k o w = Returns ((None, Some err), w') /\
     authority_NewCert a k o w = Returns ((None, Some err), w')) /\
  (forall k w k' key w1 t w2 w',
     key_or_new k w = ((Some k', None), w1) ->
     PrivateKey.privateKey k' = Some key ->
     newAuthorityCertificate o w1 = ((Some t, None), w2) ->
     x509_CreateCertificate w2 t t (rsa.Public key) key = (Err err, w') ->
     NewAuthority k o w = Returns ((None, Some err), w')) /\
  (forall a k w k' key signer ac w1 t w2 w',
     key_or_new k w = ((Some k', None), w1) ->
     PrivateKey.privateKey k' = Some key ->
     authority.c a = Some ac ->
     signer_of a = Some signer ->
     newServerCertificate o w1 = ((Some t, None), w2) ->
     x509_CreateCertificate w2 t (certificate.cert ac) (rsa.Public key) signer
       = (Err err, w') ->
     authority_NewCert a k o w = Returns ((None, Some err), w')).
Proof.
  split; [|split; [|split]].
  - intros a w w' Hg. unfold NewAuthority, authority_NewCert. cbn.
    unfold NewPrivateKey, newKey. rewrite Hg. split; reflexivity.
  - intros a k w k' w1 w' Hk Hd.
    unfold NewAuthority, authority_NewCert, newAuthorityCertificate, newServerCertificate.
    rewrite Hk, randomSerialNumber_is_rand_Int, Hd. split; reflexivity.
  - intros k w k' key w1 t w2 w' Hk Hkey Ht Hc.
    unfold NewAuthority. rewrite Hk, Ht, Hkey, Hc. reflexivity.
  - intros a k w k' key signer ac w1 t w2 w' Hk Hkey Hac Hs Ht Hc.
    unfold authority_NewCert. rewrite Hk, Ht, Hac, Hkey.
    unfold signer_of in Hs. rewrite Hac in Hs.
    destruct (certificate.privateKey ac) as [ak|]; [|discriminate].
    rewrite Hs, Hc. reflexivity.
Qed.

(** With signing as the library documents it, [NewAuthority] has three
    ways to fail and no other: the error it returns is the error of key
    generation, of the serial draw or of signing.  Re-parsing its own
    signed bytes is not one of them. *)
Theorem NewAuthority_fails_at_a_step
    (k : option PrivateKey.t) (o : CertOptions) (w w' : World) (err : error) :
  CreateCertificate_signs ->
  NewAuthority k o w = Returns ((None, Some err), w') ->
  key_or_new k w = ((None, Some err), w') \/
  (exists k' w1,
     key_or_new k w = ((Some k', None), w1) /\
     rand_Int w1 (2 ^ 128) = (Err err, w')) \/
  (exists k' key w1 t w2,
     key_or_new k w = ((Some k', None), w1) /\
     PrivateKey.privateKey k' = Some key /\
     newAuthorityCertificate o w1 = ((Some t, None), w2) /\
     x509_CreateCertificate w2 t t (rsa.Public key) key = (Err err, w')).
Proof.
  intros Hsigns H. unfold NewAuthority in H.
  destruct (key_or_new k w) as [[k' e1] w1] eqn:Hk.
  destruct e1 as [e1|].
  { destruct (key_or_new_one k w) as [[x Hx]|[x Hx]]; rewrite Hk in Hx; cbn in Hx;
      inversion Hx; subst. inversion H; subst. now left. }
  destruct (key_or_new_inv _ _ _ _ Hk) as (k0 & -> & _).
  destruct (newAuthorityCertificate o w1) as [[t e2] w2] eqn:Ht.
  destruct e2 as [e2|].
  { right; left. exists k0, w1. split; [reflexivity|].
    assert (t = None /\ e2 = err /\ w2 = w') as (-> & -> & ->)
      by (destruct t; inversion H; subst; unfold newAuthorityCertificate in Ht;
          case_run Ht; inversion Ht; auto).
    unfold newAuthorityCertificate in Ht. rewrite randomSerialNumber_is_rand_Int in Ht.
    destruct (rand_Int w1 (2 ^ 128)) as [[n|e] wx]; cbn in Ht.
    - destruct (time_Now wx); discriminate.
    - inversion Ht; subst. reflexivity. }
  destruct (newAuthorityCertificate_inv _ _ _ _ Ht) as (n & w3 & nb & _ & _ & ->).
  destruct (PrivateKey.privateKey k0) as [key|] eqn:Hkey; [|discriminate].
  destruct (x509_CreateCertificate w2 _ _ _ key) as [[der|e] w4] eqn:Hc.
  - exfalso. destruct (Hsigns _ _ _ _ _ _ _ Hc) as (parsed & Hp & _).
    unfold authority_Reload, ParseAuthorityDER, parseCertificateDER in H. cbn in H.
    rewrite Hp in H. discriminate.
  - inversion H; subst. right; right.
    exists k0, key, w1, (authority_template o n nb), w2. auto.
Qed.

(** [NewCert] has the same three ways to fail, whatever the library does:
    it never parses what it signed. *)
Theorem NewCert_fails_at_a_step
    (a : authority.t) (k : option PrivateKey.t) (o : CertOptions)
    (w w' : World) (err : error) :
  authority_NewCert a k o w = Returns ((None, Some err), w') ->
  key_or_new k w = ((None, Some err), w') \/
  (exists k' w1,
     key_or_new k w = ((Some k', None), w1) /\
     rand_Int w1 (2 ^ 128) = (Err err, w')) \/
  (exists k' key ac signer w1 t w2,
     key_or_new k w = ((Some k', None), w1) /\
     PrivateKey.privateKey k' = Some key /\
     authority.c a = Some ac /\
     signer_of a = Some signer /\
     newServerCertificate o w1 = ((Some t, None), w2) /\
     x509_CreateCertificate w2 t (certificate.cert ac) (rsa.Public key) signer
       = (Err err, w')).
Proof.
  intros H. unfold authority_NewCert in H.
  destruct (key_or_new k w) as [[k' e1] w1] eqn:Hk.
  destruct e1 as [e1|].
  { destruct (key_or_new_one k w) as [[x Hx]|[x Hx]]; rewrite Hk in Hx; cbn in Hx;
      inversion Hx; subst. inversion H; subst. now left. }
  destruct (key_or_new_inv _ _ _ _ Hk) as (k0 & -> & _).
  destruct (newServerCertificate o w1) as [[t e2] w2] eqn:Ht.
  destruct e2 as [e2|].
  { right; left. exists k0, w1. split; [reflexivity|].
    assert (e2 = err /\ w2 = w') as (-> & ->) by (destruct t; inversion H; auto).
    unfold newServerCertificate in Ht. rewrite randomSerialNumber_is_rand_Int in Ht.
    destruct (rand_Int w1 (2 ^ 128)) as [[n|e] wx]; cbn in Ht.
    - destruct (time_Now wx); discriminate.
    - inversion Ht; subst. reflexivity. }
  destruct (newServerCertificate_inv _ _ _ _ Ht) as (n & w3 & nb & _ & _ & ->).
  destruct (authority.c a) as [ac|] eqn:Hac; [|discriminate].
  destruct (PrivateKey.privateKey k0) as [key|] eqn:Hkey;
    destruct (certificate.privateKey ac) as [ak|] eqn:Hak; try discriminate.
  destruct (PrivateKey.privateKey ak) as [signer|] eqn:Hsg; [|discriminate].
  destruct (x509_CreateCertificate w2 _ _ _ signer) as [[der|e] w4] eqn:Hc;
    [discriminate|].
  inversion H; subst. right; right.
  exists k0, key, ac, signer, w1, (server_template o n nb), w2.
  unfold signer_of. rewrite Hac, Hak. auto 10.
Qed.

End Coverage.

(** ** Further properties at the level of pointers *)
Section PtrCoverage.
Context {World : Type} `{Lib : !Collaborators World}.

(** The certificate [NewCert] returns is a new object: its address and the
    address of its template were not in use before the call.  Its key
    field is the caller's key pointer itself (the key is shared, not
    copied), or, when the caller gave nil, the address of a new key. *)
Theorem NewCert_returns_a_new_certificate
    (a : Ptr.loc) (k : option Ptr.loc) (o : CertOptions)
    (h h' : Ptr.heap) (w w' : World) (l : Ptr.loc) :
  Ptr.authority_NewCert a k o h w = (Returns (Some l, None), h', w') ->
  h !! l = None /\
  exists kp certp der,
    h' !! l = Some (Ptr.obj_certificate (Some kp) certp der) /\
    h !! certp = None /\
    (forall k0, k = Some k0 -> kp = k0) /\
    (k = None -> h !! kp = None).
Proof.
  unfold Ptr.authority_NewCert. intros H.
  destruct (Ptr.key_or_new k h w) as [[[k1 e1] h1] w1] eqn:E1.
  pose proof (key_or_new_ptr_grows _ _ _ _ _ _ _ E1) as H1.
  destruct e1 as [e1|]; [discriminate|].
  destruct (Ptr.newServerCertificate o h1 w1) as [[[c2 e2] h2] w2] eqn:E2.
  pose proof (newServerCertificate_ptr_grows _ _ _ _ _ _ _ E2) as H2.
  destruct c2 as [certp|], e2 as [e2|]; try discriminate.
  destruct (Ptr.CreateCertificate_args h2 a k1 (Some certp)) as [[[[t p] pub] s]|] eqn:EA;
    [|discriminate].
  destruct (x509_CreateCertificate w2 t p pub s) as [[der|e] w3]; [|discriminate].
  destruct (Ptr.alloc h2 _) as [l3 h3] eqn:E3.
  destruct (alloc_spec _ _ _ _ E3) as [Hfresh ->].
  inversion H; subst; clear H.
  assert (Hk1 : exists kp, k1 = Some kp).
  { unfold Ptr.CreateCertificate_args in EA. cbn in EA.
    destruct k1; [eauto|exfalso].
    destruct (Ptr.load_x509 h2 certp); [|discriminate]. cbn in EA.
    destruct (Ptr.load_authority h2 a ≫= id); [|discriminate]. cbn in EA.
    destruct (Ptr.load_certificate h2 _) as [[[? ?] ?]|]; [|discriminate]. cbn in EA.
    destruct (Ptr.load_x509 h2 _); discriminate. }
  destruct Hk1 as [kp ->].
  assert (Hcert : h1 !! certp = None).
  { unfold Ptr.newServerCertificate in E2.
    destruct (newServerCertificate o w1) as [[[t0|] e0] w0]; [|discriminate].
    destruct (Ptr.alloc h1 _) as [lc hc] eqn:EC. inversion E2; subst.
    apply (alloc_spec _ _ _ _ EC). }
  split; [eapply lookup_weaken_None; [exact Hfresh|etrans; eassumption]|].
  exists kp, certp, der. split; [apply lookup_insert_eq|].
  split; [eapply lookup_weaken_None; eassumption|]. split.
  - intros k0 ->. cbn in E1. now inversion E1.
  - intros ->. cbn in E1. unfold Ptr.NewPrivateKey in E1.
    destruct (newKey w) as [[key|e] w0]; [|discriminate].
    destruct (Ptr.alloc h _) as [lk hk] eqn:EK. inversion E1; subst.
    apply (alloc_spec _ _ _ _ EK).
Qed.

End PtrCoverage.

(** ** The instance meets the further contracts, and further runs *)
Section SimCoverage.
Import Sim.

Lemma Sim_pem_round_trip_key : pem_round_trip_tag (World := World) "RSA PRIVATE KEY".
Proof.
  intros der b. exists (x2d :: x0f :: list_byte_of_string "RSA PRIVATE KEY" ++ der), [].
  split; [reflexivity|]. split; [discriminate|]. cbn. reflexivity.
Qed.

Lemma Sim_CreateCertificate_keeps_subject : CreateCertificate_keeps_subject (World := World).
Proof.
  intros w w' template parent pub priv der cn. cbn. unfold CreateCertificate.
  destruct (only_CommonName (x509.Subject parent)); [|discriminate].
  destruct (byte_of_Z (rsa.N (rsa.Public priv))) as [s|]; [|discriminate].
  destruct (byte_of_Z (rsa.N pub)) as [p|]; [|discriminate].
  destruct (Byte.of_nat _) as [l|] eqn:Hl; [|discriminate].
  intros [= <- <-] Hs. apply Byte.to_of_nat in Hl.
  unfold ParseCertificate. rewrite Hl.
  set (issuer := list_byte_of_string (pkix.CommonName (x509.Subject parent))).
  set (subject := list_byte_of_string (pkix.CommonName (x509.Subject template))).
  destruct (_ <? _)%nat eqn:Hlen.
  { apply Nat.ltb_lt in Hlen. rewrite List.length_app in Hlen. lia. }
  eexists. split; [reflexivity|]. cbn.
  rewrite skipn_app, Nat.sub_diag, skipn_all. cbn [app].
  change (skipn 0 subject) with subject. subst subject. rewrite string_of_list_byte_of_string, Hs. reflexivity.
Qed.

(** A failed parse as the exported function returns it: an error, and a
    [Certificate] that is not nil. *)
Example ParseCertificateDER_interface_of_nothing :
  ParseCertificateDER_interface [] None =
    (Certificate_of None, Some (errors_New "x509: malformed certificate")).
Proof. reflexivity. Qed.

Lemma value_or_error_run :
  one_of (Some root, None) /\
  (exists r, ParseKeyPEM wrong_tag_pem = Returns r /\ one_of r) /\
  (exists p err,
     ParseCertificateDER_interface [] None = (Certificate_of p, err) /\
     one_of (p, err)) /\
  (exists p err,
     ParseCertificatePEM_interface wrong_tag_pem None = Returns (Certificate_of p, err) /\
     one_of (p, err)).
Proof.
  split; [|split; [|split]].
  - apply (proj1 (proj2 (proj2 (proj2 (proj2 (proj2 (proj2 (proj2 (proj2 (proj2
             value_or_error)))))))))
             None root_options w0 (Some root, None) w1).
    vm_compute. reflexivity.
  - apply (proj1 (proj2 value_or_error) wrong_tag_pem).
  - apply (proj1 (proj2 (proj2 (proj2 (proj2 value_or_error)))) [] None).
  - apply (proj1 (proj2 (proj2 (proj2 (proj2 (proj2 value_or_error))))) wrong_tag_pem None).
Defined.

Lemma PEM_parsers_factor_through_DER_run :
  ParseKeyPEM wrong_tag_pem = Returns (ParseKeyDER root_der) /\
  ParseCertificatePEM wrong_tag_pem None = Returns (ParseCertificateDER root_der None) /\
  ParseAuthorityPEM wrong_tag_pem None = Returns (ParseAuthorityDER root_der None).
Proof.
  apply (PEM_parsers_factor_through_DER wrong_tag_pem None
           {| pem.Type_ := "RSA PRIVATE KEY"; pem.Headers := []; pem.Bytes := root_der |} []);
    [discriminate|reflexivity].
Defined.

Lemma GetKey_is_the_supplied_key_run :
  authority_GetKey keyless = Returns None /\
  exists k', authority_GetKey root = Returns (Some k') /\
             fst (key_or_new None w0) = (Some k', None).
Proof.
  split.
  - apply (proj1 (proj2 (proj2 GetKey_is_the_supplied_key)) root_der None keyless).
    reflexivity.
  - apply (proj1 (proj2 (proj2 (proj2 (proj2 GetKey_is_the_supplied_key))))
             None root_options w0 root w1).
    vm_compute. reflexivity.
Defined.

Lemma NewAuthority_panics_iff_run :
  NewAuthority (Some zero_key) root_options w0 = Panics.
Proof.
  apply (proj2 (NewAuthority_panics_iff (Some zero_key) root_options w0)).
  split; [reflexivity|]. eexists _, _. lazy. reflexivity.
Defined.

Lemma package_keys_are_usable_run :
  exists key, PrivateKey.privateKey root_key = Some key.
Proof.
  destruct (package_keys_are_usable (Lib := lib) root_key) as [Hkey _].
  - right; left. exists [x05]. reflexivity.
  - exact Hkey.
Defined.

Lemma Reload_is_the_identity_run : authority_Reload root = Returns (Some root, None).
Proof.
  apply (Reload_is_the_identity root).
  right; right. exists None, root_options, w0, w1. vm_compute. reflexivity.
Defined.

Lemma certificate_PEM_round_trip_run :
  exists text,
    certificate_GetPEM
      {| certificate.privateKey := Some root_key; certificate.cert := root_cert;
         certificate.der := root_der |} = (text, None) /\
    ParseCertificatePEM text (Some root_key) =
      Returns (Some {| certificate.privateKey := Some root_key;
                       certificate.cert := root_cert;
                       certificate.der := root_der |}, None).
Proof.
  apply (certificate_PEM_round_trip
           {| certificate.privateKey := Some root_key; certificate.cert := root_cert;
              certificate.der := root_der |}).
  - exact Sim_pem_round_trip.
  - reflexivity.
Defined.

Lemma NewCert_PEM_normalises_run :
  exists text c2,
    certificate_GetPEM leaf = (text, None) /\
    ParseCertificatePEM text (certificate_GetKey leaf) = Returns (Some c2, None) /\
    certificate.der c2 = certificate.der leaf /\
    certificate.privateKey c2 = certificate.privateKey leaf /\
    consistent c2.
Proof.
  apply (NewCert_PEM_normalises root None leaf_options w1 w2 leaf).
  - exact Sim_pem_round_trip.
  - exact Sim_CreateCertificate_signs.
  - vm_compute. reflexivity.
Defined.

Lemma PrivateKey_PEM_round_trip_run :
  exists text,
    PrivateKey_GetPEM root_key = Returns (text, None) /\
    ParseKeyPEM text = Returns (Some root_key, None).
Proof.
  apply (PrivateKey_PEM_round_trip root_key (key_of_byte x05)).
  - exact Sim_pem_round_trip_key.
  - reflexivity.
  - reflexivity.
Defined.

Lemma ParseAuthority_accepts_any_certificate_run :
  exists a2 k' key,
    ParseAuthorityDER (certificate.der leaf) (certificate.privateKey leaf)
      = (Some a2, None) /\
    certificate.privateKey leaf = Some k' /\
    PrivateKey.privateKey k' = Some key /\
    signer_of a2 = Some key.
Proof.
  apply (proj2 (proj2 ParseAuthority_accepts_any_certificate)
           Sim_CreateCertificate_signs root None leaf_options w1 leaf w2).
  vm_compute. reflexivity.
Defined.

Lemma NewCert_panics_iff_run :
  authority_NewCert keyless None leaf_options w1 = Panics.
Proof.
  apply (proj2 (NewCert_panics_iff (Lib := lib) keyless None leaf_options w1 w1k
                  {| entropy := tape 8; clock := 1001 |}
                  {| PrivateKey.privateKey := Some (key_of_byte x07) |}
                  9341084582143408800955381380479911687
                  eq_refl eq_refl)).
  left. reflexivity.
Defined.

Lemma keyless_authority_cannot_issue_run :
  ParseAuthorityDER root_der None = (Some keyless, None) /\
  authority_NewCert keyless (Some root_key) leaf_options w1 = Panics.
Proof.
  split; [reflexivity|].
  assert (Hloaded : (exists data, ParseAuthorityDER data None = (Some keyless, None)) \/
                    (exists data, ParseAuthorityPEM data None = Returns (Some keyless, None))).
  { left. exists root_der. reflexivity. }
  apply (proj2 (keyless_authority_cannot_issue (Lib := lib) keyless Hloaded
                  (Some root_key) leaf_options w1)
           root_key w1 9341084582143408800955381380479911687
           {| entropy := tape 9; clock := 1001 |});
    vm_compute; reflexivity.
Defined.

Lemma NewAuthority_is_self_signed_run :
  exists c key,
    authority.c root = Some c /\
    signer_of root = Some key /\
    x509.Issuer (certificate.cert c) = pkix.Name_of_CommonName (CommonName root_options) /\
    x509.Subject (certificate.cert c) = pkix.Name_of_CommonName (CommonName root_options) /\
    x509_checkSignature (rsa.Public key) (certificate.cert c) = true.
Proof.
  apply (NewAuthority_is_self_signed None root_options w0 w1 root).
  - exact Sim_CreateCertificate_signs.
  - exact Sim_CreateCertificate_keeps_subject.
  - vm_compute. reflexivity.
Defined.

Lemma root_then_leaf_run :
  exists parsed key,
    x509_ParseCertificate (certificate.der leaf) = Ok parsed /\
    x509.Issuer parsed = pkix.Name_of_CommonName "root" /\
    x509.Subject parsed = pkix.Name_of_CommonName "leaf" /\
    signer_of root = Some key /\
    x509_checkSignature (rsa.Public key) parsed = true.
Proof.
  apply (root_then_leaf None None root_options leaf_options w0 w1 w1 w2 root leaf).
  - exact Sim_CreateCertificate_signs.
  - exact Sim_CreateCertificate_keeps_subject.
  - vm_compute. reflexivity.
  - vm_compute. reflexivity.
Defined.

Lemma signing_requests_run :
  exists ac k' key signer t wt,
    authority.c root = Some ac /\
    fst (key_or_new None w1) = (Some k', None) /\
    PrivateKey.privateKey k' = Some key /\
    signer_of root = Some signer /\
    x509_CreateCertificate wt t (certificate.cert ac) (rsa.Public key) signer
      = (Ok (certificate.der leaf), w2) /\
    x509.IsCA t = false /\ x509.BasicConstraintsValid t = true /\
    x509.KeyUsage_ t = 0 /\ x509.ExtKeyUsage_ t = [] /\
    x509.Subject t = pkix.Name_of_CommonName (CommonName leaf_options).
Proof.
  apply (proj2 (signing_requests leaf_options) root None w1 leaf w2).
  vm_compute. reflexivity.
Defined.

Lemma constructors_fail_fast_run :
  NewAuthority None root_options dry = Returns ((None, Some EOF), dry) /\
  authority_NewCert keyless None root_options dry = Returns ((None, Some EOF), dry).
Proof.
  apply (proj1 (constructors_fail_fast root_options EOF) keyless dry dry).
  reflexivity.
Defined.

Lemma NewAuthority_fails_at_a_step_run :
  key_or_new (Some root_key) dry = ((None, Some EOF), dry) \/
  (exists k' wa,
     key_or_new (Some root_key) dry = ((Some k', None), wa) /\
     rand_Int wa (2 ^ 128) = (Err EOF, dry)) \/
  (exists k' key wa t wb,
     key_or_new (Some root_key) dry = ((Some k', None), wa) /\
     PrivateKey.privateKey k' = Some key /\
     newAuthorityCertificate root_options wa = ((Some t, None), wb) /\
     x509_CreateCertificate wb t t (rsa.Public key) key = (Err EOF, dry)).
Proof.
  apply (NewAuthority_fails_at_a_step (Some root_key) root_options dry dry EOF).
  - exact Sim_CreateCertificate_signs.
  - vm_compute. reflexivity.
Defined.

Lemma NewCert_fails_at_a_step_run :
  key_or_new None dry = ((None, Some EOF), dry) \/
  (exists k' wa,
     key_or_new None dry = ((Some k', None), wa) /\
     rand_Int wa (2 ^ 128) = (Err EOF, dry)) \/
  (exists k' key ac signer wa t wb,
     key_or_new None dry = ((Some k', None), wa) /\
     PrivateKey.privateKey k' = Some key /\
     authority.c root = Some ac /\
     signer_of root = Some signer /\
     newServerCertificate leaf_options wa = ((Some t, None), wb) /\
     x509_CreateCertificate wb t (certificate.cert ac) (rsa.Public key) signer
       = (Err EOF, dry)).
Proof.
  apply (NewCert_fails_at_a_step root None leaf_options dry dry EOF).
  vm_compute. reflexivity.
Defined.

Lemma parsed_certificates_consistent_run :
  consistent {| certificate.privateKey := None; certificate.cert := root_cert;
                certificate.der := root_der |}.
Proof.
  apply (proj1 (parsed_certificates_consistent None _) root_der). reflexivity.
Defined.

Lemma NewCert_returns_a_new_certificate_run :
  h0 !! 7%positive = None /\
  exists kp certp der,
    (Ptr.authority_NewCert 4%positive None leaf_options h0 w1).1.2 !! 7%positive
      = Some (Ptr.obj_certificate (Some kp) certp der) /\
    h0 !! certp = None /\
    (forall k0 : Ptr.loc, None = Some k0 -> kp = k0) /\
    (@None Ptr.loc = None -> h0 !! kp = None).
Proof.
  apply (NewCert_returns_a_new_certificate 4%positive None leaf_options h0
           (Ptr.authority_NewCert 4%positive None leaf_options h0 w1).1.2
           w1 (Ptr.authority_NewCert 4%positive None leaf_options h0 w1).2 7%positive).
  vm_compute. reflexivity.
Defined.

End SimCoverage.
